(** * The listbox state machine of packages/listbox/src/machine.ts

    A shallow embedding of the machine configuration handed to
    [createMachine] of @xstate/fsm, of the actions and guards it names, and of
    the interpreter step ([machine.transition] followed by the execution of
    the non-assign actions, as [service.send] performs it).

    Conventions.
    - JavaScript [null] and [undefined] are both [None]; every place of the
      source that reads such a value treats the two alike ([!= null], [&&],
      [||], optional chaining).
    - DOM nodes, documents and caller-supplied callbacks are handles compared
      by identity ([===]); the DOM itself is an explicit environment [Dom].
    - Text is held in UTF-8, one 8-bit character per byte; on well-formed
      text, concatenation, emptiness and [startsWith] on the bytes are those
      of the UTF-16 strings of JavaScript.
    - [String.prototype.toLowerCase] belongs to the platform and is a
      parameter of the whole development ([LowerCase]); what a property
      needs to know about it is a hypothesis of that property.
    - Side effects (focus requests, callback invocations, console output,
      animation-frame scheduling) are collected, in order, in a trace.
    - A JavaScript [TypeError] is the failure of the monad [M]. *)

From Stdlib Require Import List String Ascii Bool Arith Lia.
Import ListNotations.

Set Implicit Arguments.

(** ** States and events *)

Inductive ListboxStates : Type :=
| Idle
| Navigating
| NavigatingWithKeys
| Searching
| Interacting.

Inductive ListboxEvents : Type :=
| ButtonMouseDown
| ButtonMouseUp
| Blur
| ClearNavSelection
| ClearTypeahead
| GetDerivedData
| KeyDownEscape
| KeyDownEnter
| KeyDownSpace
| KeyDownNavigate
| KeyDownSearch
| KeyDownTab
| KeyDownShiftTab
| Navigate
| OptionMouseEnter
| ValueChange
| OptionStartClick
| OptionFinishClick
| PopoverPointerDown
| PopoverPointerUp
| UpdateAfterTypeahead.

(** The string tag of an event type, the key of the [on] objects. *)
Definition event_tag (e : ListboxEvents) : string :=
  match e with
  | ButtonMouseDown => "BUTTON_MOUSE_DOWN"
  | ButtonMouseUp => "BUTTON_MOUSE_UP"
  | Blur => "BLUR"
  | ClearNavSelection => "CLEAR_NAV_SELECTION"
  | ClearTypeahead => "CLEAR_TYPEAHEAD"
  | GetDerivedData => "GET_DERIVED_DATA"
  | KeyDownEscape => "KEY_DOWN_ESCAPE"
  | KeyDownEnter => "KEY_DOWN_ENTER"
  | KeyDownSpace => "KEY_DOWN_SPACE"
  | KeyDownNavigate => "KEY_DOWN_NAVIGATE"
  | KeyDownSearch => "KEY_DOWN_SEARCH"
  | KeyDownTab => "KEY_DOWN_TAB"
  | KeyDownShiftTab => "KEY_DOWN_SHIFT_TAB"
  | Navigate => "NAVIGATE"
  | OptionMouseEnter => "OPTION_MOUSE_ENTER"
  | ValueChange => "VALUE_CHANGE"
  | OptionStartClick => "OPTION_START_CLICK"
  | OptionFinishClick => "OPTION_FINISH_CLICK"
  | PopoverPointerDown => "POPOVER_POINTER_DOWN"
  | PopoverPointerUp => "POPOVER_POINTER_UP"
  | UpdateAfterTypeahead => "UPDATE_AFTER_TYPEAHEAD"
  end.

(** The string value of a state, the key of [states]. *)
Definition state_tag (s : ListboxStates) : string :=
  match s with
  | Idle => "IDLE"
  | Navigating => "NAVIGATING"
  | NavigatingWithKeys => "NAVIGATING_WITH_KEYS"
  | Searching => "SEARCHING"
  | Interacting => "INTERACTING"
  end.

(** [a === b] on state values. *)
Definition same_state (a b : ListboxStates) : bool :=
  String.eqb (state_tag a) (state_tag b).

(** Property keys of an [on] object are compared as strings. *)
Definition same_event (a b : ListboxEvents) : bool :=
  String.eqb (event_tag a) (event_tag b).

(** ** The DOM environment *)

Definition Element := nat.
Definition Document := nat.
Definition Callback := nat.

(** What the guards read from the page.  [ownerDocument] is
    [getOwnerDocument] of @reach/utils applied to a mounted node; that helper
    is not part of machine.ts and is taken as a component of the
    environment.  [document] is the global document the source falls back to
    when the handle it starts from is missing. *)
Record Dom : Type := {
  document : Document;
  ownerDocument : Element -> Document;
  activeElement : Document -> option Element;
  contains : Element -> Element -> bool
}.

(** [a === b] on node handles that may be [null]. *)
Definition same_node (a b : option Element) : bool :=
  match a, b with
  | Some x, Some y => Nat.eqb x y
  | None, None => true
  | _, _ => false
  end.

(** [node.contains(other)]; the DOM answers [false] for a [null] argument. *)
Definition node_contains (d : Dom) (node : Element) (other : option Element) : bool :=
  match other with
  | Some o => contains d node o
  | None => false
  end.

(** ** Strings *)

(** [String.prototype.toLowerCase], the platform's lowercasing. *)
Class LowerCase : Type := toLowerCase : string -> string.

(** The lowercasing of Basic Latin: A-Z go to a-z, every other character
    stays. *)
Definition lower_char (c : ascii) : ascii :=
  let n := nat_of_ascii c in
  if (65 <=? n) && (n <=? 90) then ascii_of_nat (n + 32) else c.

Fixpoint ascii_fold (s : string) : string :=
  match s with
  | EmptyString => EmptyString
  | String c rest => String (lower_char c) (ascii_fold rest)
  end.

(** Text made of Basic Latin (ASCII) characters only. *)
Fixpoint is_ascii (s : string) : bool :=
  match s with
  | EmptyString => true
  | String c rest => (nat_of_ascii c <? 128) && is_ascii rest
  end.

(** Two facts about the platform's lowercasing that hold of
    [String.prototype.toLowerCase]: only the empty string lowers to the
    empty string, and ASCII text is lowered letter by letter. *)
Definition keeps_empty (lower : LowerCase) : Prop :=
  forall s, toLowerCase s = EmptyString <-> s = EmptyString.

Definition folds_ascii (lower : LowerCase) : Prop :=
  forall s, is_ascii s = true -> toLowerCase s = ascii_fold s.

(** The same letter, case aside: the same character, or a capital A-Z and
    its small letter, 32 codes further. *)
Definition same_letter (c d : ascii) : Prop :=
  c = d
  \/ (65 <= nat_of_ascii c <= 90 /\ nat_of_ascii d = nat_of_ascii c + 32)
  \/ (65 <= nat_of_ascii d <= 90 /\ nat_of_ascii c = nat_of_ascii d + 32).

(** [ci_prefix q s]: [s] starts with [q] when letter case is ignored. *)
Inductive ci_prefix : string -> string -> Prop :=
| ci_prefix_empty (s : string) : ci_prefix EmptyString s
| ci_prefix_step (c d : ascii) (q s : string) :
    same_letter c d -> ci_prefix q s -> ci_prefix (String c q) (String d s).

(** [s.startsWith(q)] *)
Fixpoint startsWith (s q : string) {struct q} : bool :=
  match q with
  | EmptyString => true
  | String c q' =>
      match s with
      | EmptyString => false
      | String d s' => Ascii.eqb d c && startsWith s' q'
      end
  end.

(** Truthiness of a string: only the empty string is falsy. *)
Definition truthy (s : string) : bool :=
  match s with
  | EmptyString => false
  | String _ _ => true
  end.

(** ** The data carried by the machine *)

(** [===] on listbox values.  [ListboxValue] is declared in ./types, which is
    not part of machine.ts: the machine only stores values, hands them to
    callbacks and compares them with [===], so the type is a parameter. *)
Class StrictEq (A : Type) : Type := strict_eq : A -> A -> bool.

#[export] Instance StrictEq_nat : StrictEq nat := Nat.eqb.

Section Data.

Variable ListboxValue : Type.

(** The four element handles attached to every event by [useMachine]. *)
Record Refs : Type := {
  button : option Element;
  input : option Element;
  list_ : option Element;
  popover : option Element
}.

(** A descendant of the listbox: [{ element, value, label, disabled }]. *)
Record ListboxOption : Type := {
  element : option Element;
  opt_value : ListboxValue;
  label : string;
  disabled : bool
}.

(** The machine context, [ListboxStateData]. *)
Record ListboxStateData : Type := {
  value : option ListboxValue;
  refs : Refs;
  options : list ListboxOption;
  navigationValue : option ListboxValue;
  typeaheadQuery : option string
}.

(** [Partial<Refs>]: an absent key is the outer [None]. *)
Record RefsPatch : Type := {
  p_button : option (option Element);
  p_input : option (option Element);
  p_list : option (option Element);
  p_popover : option (option Element)
}.

(** [Partial<ListboxStateData>], the payload of GetDerivedData: an absent
    key is the outer [None]; [p_refs] is [None] when the key is absent or
    holds a falsy value.  A key that is present holds a value of its type:
    a payload with [options: undefined], after which the guards and
    actions that search the options would throw, is not represented. *)
Record DataPatch : Type := {
  p_value : option (option ListboxValue);
  p_refs : option RefsPatch;
  p_options : option (list ListboxOption);
  p_navigationValue : option (option ListboxValue);
  p_typeaheadQuery : option (option string)
}.

(** An event object as the handlers read it (they are typed [any]): the tag,
    the refs attached by [send], and the payload fields the actions and
    guards look at, each of which may be missing. *)
Record ListboxEvent : Type := {
  type : ListboxEvents;
  ev_refs : Refs;
  ev_value : option ListboxValue;
  callback : option Callback;
  ev_disabled : bool;
  query : option string;
  relatedTarget : option Element;
  data : option DataPatch
}.

(** A state object of the interpreter: [{ value, context, changed }]. *)
Record State : Type := {
  state_value : ListboxStates;
  context : ListboxStateData;
  changed : bool
}.

(** Observable side effects, in the order the program performs them.
    [RequestAnimationFrame node] is the one frame callback the source
    schedules: on the next frame it focuses [node] when there is one. *)
Inductive Effect : Type :=
| Focus (node : Element)
| Call (f : Callback) (arg : option ListboxValue)
| ConsoleLog (msg : string)
| RequestAnimationFrame (focus : option Element).

End Data.

Arguments Focus {ListboxValue} node.
Arguments ConsoleLog {ListboxValue} msg.
Arguments RequestAnimationFrame {ListboxValue} focus.

(** ** Effects and failure

    [M E A]: a computation that raises a TypeError ([None]) or returns a
    result together with the effects it performed. *)

Definition M (E A : Type) : Type := option (A * list E).

Definition ret {E A : Type} (a : A) : M E A := Some (a, []).

Definition bind {E A B : Type} (m : M E A) (k : A -> M E B) : M E B :=
  match m with
  | None => None
  | Some (a, fx) =>
      match k a with
      | None => None
      | Some (b, fx') => Some (b, fx ++ fx')
      end
  end.

Definition tell {E : Type} (fx : list E) : M E unit := Some (tt, fx).

Definition typeError {E A : Type} : M E A := None.

Declare Scope js_scope.
Delimit Scope js_scope with js.
Notation "x <- m ;; k" := (bind m (fun x => k))
  (at level 61, m at next level, right associativity) : js_scope.
Notation "m ;; k" := (bind m (fun _ => k))
  (at level 61, right associativity) : js_scope.

(** ** Actions, guards and the machine configuration *)

Section Machine.

Context {ListboxValue : Type} {value_eq : StrictEq ListboxValue}
        {lower : LowerCase}.

Abbreviation Data := (ListboxStateData ListboxValue).
Abbreviation Event := (ListboxEvent ListboxValue).
Abbreviation Fx := (Effect ListboxValue).

Local Open Scope js_scope.

(** An action of a transition, as [toActionObject] sees it: the result of
    [assign], whose assignment computes the next context, or a plain function,
    executed once the transition is taken. *)
Inductive ActionObject : Type :=
| assign (assignment : Data -> Event -> M Fx Data)
| exec (f : Data -> Event -> list Fx).

(** [assign({ key: v })]: a copy of the context with one key replaced. *)
Definition set_value (v : option ListboxValue) (d : Data) : Data :=
  {| value := v; refs := refs d; options := options d;
     navigationValue := navigationValue d; typeaheadQuery := typeaheadQuery d |}.

Definition set_navigationValue (v : option ListboxValue) (d : Data) : Data :=
  {| value := value d; refs := refs d; options := options d;
     navigationValue := v; typeaheadQuery := typeaheadQuery d |}.

Definition set_typeaheadQuery (q : option string) (d : Data) : Data :=
  {| value := value d; refs := refs d; options := options d;
     navigationValue := navigationValue d; typeaheadQuery := q |}.

Definition assign_value (f : Data -> Event -> M Fx (option ListboxValue)) : ActionObject :=
  assign (fun d e => v <- f d e ;; ret (set_value v d)).

Definition assign_navigationValue (f : Data -> Event -> M Fx (option ListboxValue)) : ActionObject :=
  assign (fun d e => v <- f d e ;; ret (set_navigationValue v d)).

Definition assign_typeaheadQuery (f : Data -> Event -> M Fx (option string)) : ActionObject :=
  assign (fun d e => v <- f d e ;; ret (set_typeaheadQuery v d)).

Definition clearNavigationValue : ActionObject :=
  assign_navigationValue (fun _ _ => ret None).

Definition clearTypeaheadQuery : ActionObject :=
  assign_typeaheadQuery (fun _ _ => ret None).

Definition assignValue : ActionObject :=
  assign_value (fun _ event => ret (ev_value event)).

Definition navigate : ActionObject :=
  assign_navigationValue (fun _ event => ret (ev_value event)).

Definition navigateFromCurrentValue : ActionObject :=
  assign_navigationValue (fun data _ => ret (value data)).

(** [(node && getOwnerDocument(node)) || document] *)
Definition owner_or_document (dom : Dom) (node : option Element) : Document :=
  match node with
  | Some n => ownerDocument dom n
  | None => document dom
  end.

Definition listboxLostFocus (dom : Dom) (data : Data) (event : Event) : bool :=
  match type event with
  | Blur =>
      let ownerDoc := owner_or_document dom (button (ev_refs event)) in
      negb (same_node (activeElement dom ownerDoc) (list_ (ev_refs event)))
      && match popover (ev_refs event) with
         | Some p =>
             negb (node_contains dom p
                     (match relatedTarget event with
                      | Some t => Some t
                      | None => activeElement dom ownerDoc
                      end))
         | None => false
         end
  | _ => false
  end.

Definition optionIsActive (dom : Dom) (data : Data) (event : Event) : bool :=
  let ownerDoc := owner_or_document dom (popover (ev_refs event)) in
  match find (fun o => same_node (element o) (activeElement dom ownerDoc))
             (options data) with
  | Some _ => true
  | None => false
  end.

Definition focusList (data : Data) (event : Event) : list Fx :=
  match list_ (ev_refs event) with
  | Some l => [Focus l]
  | None => []
  end.

Definition getNavigationNodeFromValue (data : Data) (v : option ListboxValue)
  : option Element :=
  match find (fun o => match v with
                       | Some x => strict_eq x (opt_value o)
                       | None => false
                       end) (options data) with
  | Some o => element o
  | None => None
  end.

Definition focusNavOption (data : Data) (event : Event) : list Fx :=
  [RequestAnimationFrame (getNavigationNodeFromValue data (navigationValue data))].

Definition focusButton (data : Data) (event : Event) : list Fx :=
  match button (ev_refs event) with
  | Some b => [Focus b]
  | None => []
  end.

Definition optionIsSelectable (data : Data) (event : Event) : M Fx bool :=
  if ev_disabled event then
    tell [ConsoleLog "BLOCKED"%string] ;; ret false
  else
    ret (match navigationValue data with Some _ => true | None => false end).

Definition selectOption (data : Data) (event : Event) : list Fx :=
  match callback event with
  | Some cb => [Call cb (ev_value event)]
  | None => []
  end.

(** [q || EmptyString] *)
Definition or_empty (q : option string) : string :=
  match q with
  | Some s => s
  | None => EmptyString
  end.

(** String concatenation with a value that may be [undefined].  (The
    events of the machine carry a string or nothing; a [null], which would
    print as "null", is not told apart from [undefined].) *)
Definition to_js_string (q : option string) : string :=
  match q with
  | Some s => s
  | None => "undefined"%string
  end.

Definition setTypeahead : ActionObject :=
  assign_typeaheadQuery (fun data event =>
    ret (Some (or_empty (typeaheadQuery data) ++ to_js_string (query event))%string)).

Definition clearTypeahead : ActionObject :=
  assign_typeaheadQuery (fun _ _ => ret (Some EmptyString)).

(** The parameter [string] defaults to the empty string. *)
Definition findOptionFromTypeahead (options : list (ListboxOption ListboxValue))
    (string : option String.string) : option (ListboxOption ListboxValue) :=
  let string := or_empty string in
  if negb (truthy string) then None
  else
    find (fun option =>
            negb (disabled option)
            && truthy (label option)
            && startsWith (toLowerCase (label option)) (toLowerCase string))
         options.

(** [event.type === UpdateAfterTypeahead && event.query] *)
Definition typeahead_update (event : Event) : bool :=
  match type event with
  | UpdateAfterTypeahead => truthy (or_empty (query event))
  | _ => false
  end.

Definition setValueFromTypeahead : ActionObject :=
  assign_value (fun data event =>
    if typeahead_update event then
      match findOptionFromTypeahead (options data) (query event) with
      | Some m =>
          if negb (disabled m) then
            tell (match callback event with
                  | Some cb => [Call cb (Some (opt_value m))]
                  | None => []
                  end) ;;
            ret (Some (opt_value m))
          else ret (value data)
      | None => ret (value data)
      end
    else ret (value data)).

Definition setNavSelectionFromTypeahead : ActionObject :=
  assign_navigationValue (fun data event =>
    if typeahead_update event then
      match findOptionFromTypeahead (options data) (query event) with
      | Some m =>
          if negb (disabled m) then ret (Some (opt_value m))
          else ret (navigationValue data)
      | None => ret (navigationValue data)
      end
    else ret (navigationValue data)).

(** Object spread of one key: the patch wins when it has the key. *)
Definition spread {A : Type} (old : A) (patch : option A) : A :=
  match patch with
  | Some v => v
  | None => old
  end.

(** [{ ...ctx.refs, ...(event.data.refs || {}) }] *)
Definition spread_refs (old : Refs) (patch : option RefsPatch) : Refs :=
  match patch with
  | Some p =>
      {| button := spread (button old) (p_button p);
         input := spread (input old) (p_input p);
         list_ := spread (list_ old) (p_list p);
         popover := spread (popover old) (p_popover p) |}
  | None => old
  end.

(** The assignment of GetDerivedData; reading [event.data.refs] of an event
    without [data] is a TypeError. *)
Definition getDerivedData : ActionObject :=
  assign (fun ctx event =>
    match data event with
    | None => typeError
    | Some d =>
        ret {| value := spread (value ctx) (p_value d);
               refs := spread_refs (refs ctx) (p_refs d);
               options := spread (options ctx) (p_options d);
               navigationValue := spread (navigationValue ctx) (p_navigationValue d);
               typeaheadQuery := spread (typeaheadQuery ctx) (p_typeaheadQuery d) |}
    end).

(** A transition descriptor [{ target, actions, cond }]. *)
Record Transition : Type := {
  target : option ListboxStates;
  actions : list ActionObject;
  cond : option (Dom -> Data -> Event -> M Fx bool)
}.

(** An [on] object: keys in insertion order, each with its transitions. *)
Definition Handlers : Type := list (ListboxEvents * list Transition).

(** [cond: g] for a guard that reads the page and has no effect. *)
Definition guard (g : Dom -> Data -> Event -> bool)
  : option (Dom -> Data -> Event -> M Fx bool) :=
  Some (fun dom d e => ret (g dom d e)).

(** [cond: optionIsSelectable] *)
Definition selectable : option (Dom -> Data -> Event -> M Fx bool) :=
  Some (fun _ d e => optionIsSelectable d e).

Definition commonEvents : Handlers :=
  [ (GetDerivedData,
      [ {| target := None; actions := [getDerivedData]; cond := None |} ]);
    (ValueChange,
      [ {| target := None; actions := [assignValue; exec selectOption];
           cond := None |} ]) ].

Definition openEvents : Handlers :=
  [ (ClearNavSelection,
      [ {| target := None; actions := [clearNavigationValue; exec focusList];
           cond := None |} ]);
    (OptionFinishClick,
      [ {| target := Some Idle;
           actions := [assignValue; exec selectOption; exec focusButton;
                       clearTypeaheadQuery];
           cond := selectable |} ]);
    (KeyDownEnter,
      [ {| target := Some Idle;
           actions := [assignValue; exec selectOption; exec focusButton;
                       clearTypeaheadQuery];
           cond := selectable |} ]);
    (KeyDownSpace,
      [ {| target := Some Idle;
           actions := [assignValue; exec selectOption; exec focusButton;
                       clearTypeaheadQuery];
           cond := selectable |} ]);
    (ButtonMouseDown,
      [ {| target := Some Idle; actions := [exec focusButton]; cond := None |} ]);
    (KeyDownEscape,
      [ {| target := Some Idle; actions := [exec focusButton]; cond := None |} ]) ].

(** [states[s].on] of the configuration, entry by entry. *)
Definition on (s : ListboxStates) : Handlers :=
  match s with
  | Idle =>
      commonEvents ++
      [ (ButtonMouseDown,
          [ {| target := Some Navigating;
               actions := [navigateFromCurrentValue; exec focusButton];
               cond := None |} ]);
        (KeyDownSpace,
          [ {| target := Some NavigatingWithKeys;
               actions := [navigateFromCurrentValue; exec focusNavOption];
               cond := None |} ]);
        (KeyDownSearch,
          [ {| target := Some Idle; actions := [setTypeahead]; cond := None |} ]);
        (UpdateAfterTypeahead,
          [ {| target := Some Idle; actions := [setValueFromTypeahead];
               cond := None |} ]);
        (ClearTypeahead,
          [ {| target := Some Idle; actions := [clearTypeahead]; cond := None |} ]);
        (KeyDownNavigate,
          [ {| target := Some NavigatingWithKeys;
               actions := [navigate; exec focusNavOption; clearTypeaheadQuery];
               cond := None |} ]) ]
  | Interacting =>
      commonEvents ++ openEvents ++
      [ (Blur,
          [ {| target := Some Idle; actions := [clearTypeaheadQuery];
               cond := guard listboxLostFocus |};
            {| target := Some Navigating; actions := [];
               cond := guard optionIsActive |};
            {| target := Some Interacting; actions := [clearTypeaheadQuery];
               cond := None |} ]);
        (Navigate,
          [ {| target := Some Navigating;
               actions := [navigate; exec focusNavOption]; cond := None |} ]);
        (KeyDownNavigate,
          [ {| target := Some NavigatingWithKeys;
               actions := [navigate; exec focusNavOption; clearTypeaheadQuery];
               cond := None |} ]) ]
  | Navigating =>
      commonEvents ++ openEvents ++
      [ (Blur,
          [ {| target := Some Idle; actions := [clearTypeaheadQuery];
               cond := guard listboxLostFocus |};
            {| target := Some Navigating; actions := [];
               cond := guard optionIsActive |};
            {| target := Some Interacting; actions := [clearTypeaheadQuery];
               cond := None |} ]);
        (ButtonMouseUp,
          [ {| target := None;
               actions := [exec focusList; navigateFromCurrentValue;
                           exec focusNavOption];
               cond := None |} ]);
        (Navigate,
          [ {| target := Some Navigating;
               actions := [navigate; exec focusNavOption]; cond := None |} ]);
        (KeyDownNavigate,
          [ {| target := Some NavigatingWithKeys;
               actions := [navigate; exec focusNavOption; clearTypeaheadQuery];
               cond := None |} ]);
        (KeyDownSearch,
          [ {| target := Some NavigatingWithKeys; actions := [setTypeahead];
               cond := None |} ]);
        (UpdateAfterTypeahead,
          [ {| target := None;
               actions := [setNavSelectionFromTypeahead; exec focusNavOption];
               cond := None |} ]);
        (ClearTypeahead,
          [ {| target := None; actions := [clearTypeahead]; cond := None |} ]) ]
  | NavigatingWithKeys =>
      commonEvents ++ openEvents ++
      [ (Blur,
          [ {| target := Some Idle; actions := [clearTypeaheadQuery];
               cond := guard listboxLostFocus |};
            {| target := Some NavigatingWithKeys; actions := [];
               cond := guard optionIsActive |};
            {| target := Some Interacting; actions := [clearTypeaheadQuery];
               cond := None |} ]);
        (Navigate,
          [ {| target := Some Navigating;
               actions := [navigate; exec focusNavOption]; cond := None |} ]);
        (KeyDownNavigate,
          [ {| target := Some NavigatingWithKeys;
               actions := [navigate; exec focusNavOption; clearTypeaheadQuery];
               cond := None |} ]);
        (KeyDownSearch,
          [ {| target := Some NavigatingWithKeys; actions := [setTypeahead];
               cond := None |} ]);
        (UpdateAfterTypeahead,
          [ {| target := None;
               actions := [setNavSelectionFromTypeahead; exec focusNavOption];
               cond := None |} ]);
        (ClearTypeahead,
          [ {| target := None; actions := [clearTypeahead]; cond := None |} ]) ]
  | Searching =>
      commonEvents ++ openEvents ++
      [ (Blur,
          [ {| target := Some Idle; actions := [clearTypeaheadQuery];
               cond := guard listboxLostFocus |};
            {| target := Some Searching; actions := [];
               cond := guard optionIsActive |};
            {| target := Some Interacting; actions := [clearTypeaheadQuery];
               cond := None |} ]);
        (Navigate,
          [ {| target := Some Navigating;
               actions := [navigate; exec focusNavOption; clearTypeaheadQuery];
               cond := None |} ]);
        (KeyDownNavigate,
          [ {| target := Some NavigatingWithKeys;
               actions := [navigate; exec focusNavOption; clearTypeaheadQuery];
               cond := None |} ]);
        (KeyDownSearch,
          [ {| target := Some NavigatingWithKeys; actions := [setTypeahead];
               cond := None |} ]);
        (UpdateAfterTypeahead,
          [ {| target := None;
               actions := [setNavSelectionFromTypeahead; exec focusNavOption];
               cond := None |} ]);
        (ClearTypeahead,
          [ {| target := None; actions := [clearTypeahead]; cond := None |} ]) ]
  end.

(** ** The interpreter of @xstate/fsm *)

(** [on[key]] of an object literal built with spreads: a later binding of a
    key replaces an earlier one. *)
Fixpoint get (h : Handlers) (key : ListboxEvents) : option (list Transition) :=
  match h with
  | [] => None
  | (k, ts) :: rest =>
      match get rest key with
      | Some later => Some later
      | None => if same_event k key then Some ts else None
      end
  end.

(** [toArray]: no transitions for a key the object lacks. *)
Definition toArray (ts : option (list Transition)) : list Transition :=
  match ts with
  | Some l => l
  | None => []
  end.

(** [handleActions]: the assignments run in order, each on the context the
    previous one left; the other actions are kept for execution.  The result
    is [(nonAssignActions, nextContext, assigned)]. *)
Fixpoint handleActions (acts : list ActionObject) (context : Data) (event : Event)
  : M Fx (list (Data -> Event -> list Fx) * Data * bool) :=
  match acts with
  | [] => ret ([], context, false)
  | assign assignment :: rest =>
      next <- assignment context event ;;
      r <- handleActions rest next event ;;
      let '(nonAssign, final, _) := r in
      ret (nonAssign, final, true)
  | exec f :: rest =>
      r <- handleActions rest context event ;;
      let '(nonAssign, final, assigned) := r in
      ret (f :: nonAssign, final, assigned)
  end.

(** [createUnchangedState] *)
Definition unchanged (v : ListboxStates) (c : Data) : State ListboxValue :=
  {| state_value := v; context := c; changed := false |}.

(** The loop of [machine.transition] over the transitions of the event: the
    first one whose [cond] holds is taken. *)
Fixpoint first_enabled (dom : Dom) (v : ListboxStates) (c : Data) (event : Event)
    (transitions : list Transition)
  : M Fx (State ListboxValue * list (Data -> Event -> list Fx)) :=
  match transitions with
  | [] => ret (unchanged v c, [])
  | t :: rest =>
      ok <- match cond t with
            | Some g => g dom c event
            | None => ret true
            end ;;
      if ok then
        r <- handleActions (actions t) c event ;;
        let '(nonAssign, next, assigned) := r in
        ret ({| state_value := match target t with Some x => x | None => v end;
                context := next;
                changed := match target t with
                           | Some x => negb (same_state x v)
                           | None => true
                           end
                           || negb (Nat.eqb (List.length nonAssign) 0)
                           || assigned |},
             nonAssign)
      else first_enabled dom v c event rest
  end.

Definition transition (dom : Dom) (v : ListboxStates) (c : Data) (event : Event)
  : M Fx (State ListboxValue * list (Data -> Event -> list Fx)) :=
  first_enabled dom v c event (toArray (get (on v) (type event))).

(** [service.send]: the transition, then [executeStateActions] on the new
    state's context. *)
Definition send (dom : Dom) (s : State ListboxValue) (event : Event)
  : M Fx (State ListboxValue) :=
  r <- transition dom (state_value s) (context s) event ;;
  let '(s', todo) := r in
  tell (flat_map (fun f => f (context s') event) todo) ;;
  ret s'.

(** [createListboxMachine({ value })]: the initial state. *)
Definition createListboxMachine (v : option ListboxValue) : State ListboxValue :=
  {| state_value := Idle;
     context := {| value := v;
                   refs := {| button := None; input := None;
                              list_ := None; popover := None |};
                   options := [];
                   navigationValue := None;
                   typeaheadQuery := None |};
     changed := false |}.

End Machine.

(** ** Vocabulary of the properties *)

Section Vocabulary.

Context {ListboxValue : Type} {lower : LowerCase}.

(** [send] answered with a state of value [v] and context [c], after
    performing exactly the effects [fx]. *)
Definition steps_to (r : M (Effect ListboxValue) (State ListboxValue))
    (v : ListboxStates) (c : ListboxStateData ListboxValue)
    (fx : list (Effect ListboxValue)) : Prop :=
  exists s', r = Some (s', fx) /\ state_value s' = v /\ context s' = c.

(** The event was dropped: same state value, same context, nothing marked
    as changed. *)
Definition dropped (r : M (Effect ListboxValue) (State ListboxValue))
    (s : State ListboxValue) (fx : list (Effect ListboxValue)) : Prop :=
  r = Some (unchanged (state_value s) (context s), fx).

(** The four states in which the popover is open. *)
Definition isOpen (v : ListboxStates) : bool :=
  match v with
  | Idle => false
  | _ => true
  end.

(** Where an open state goes on Blur when focus sits on a tracked option:
    Interacting returns to Navigating, the others stay. *)
Definition stay_navigating (v : ListboxStates) : ListboxStates :=
  match v with
  | Interacting => Navigating
  | other => other
  end.

(** The three open states that declare the typeahead events. *)
Definition hasTypeahead (v : ListboxStates) : bool :=
  match v with
  | Navigating | NavigatingWithKeys | Searching => true
  | _ => false
  end.

(** An option answers a query when it is enabled and its label, lowered by
    the platform, starts with the query lowered by the platform. *)
Definition answers (q : string) (o : ListboxOption ListboxValue) : Prop :=
  disabled o = false /\
  exists rest, toLowerCase (label o) = (toLowerCase q ++ rest)%string.

End Vocabulary.

(** The keys of [refs], to speak of one handle at a time. *)
Inductive RefKey : Type := KButton | KInput | KList | KPopover.

Definition ref_at (k : RefKey) (r : Refs) : option Element :=
  match k with
  | KButton => button r
  | KInput => input r
  | KList => list_ r
  | KPopover => popover r
  end.

(** What a payload says about one handle: [None] when the payload has no
    [refs] or its [refs] lacks the key. *)
Definition patch_at (k : RefKey) (p : option RefsPatch) : option (option Element) :=
  match p with
  | None => None
  | Some r =>
      match k with
      | KButton => p_button r
      | KInput => p_input r
      | KList => p_list r
      | KPopover => p_popover r
      end
  end.

(** ** A sample page

    A button (node 1), a list (node 3) and a popover (node 4) that holds the
    list and the two option nodes 5 and 6; node 7 lies outside the popover.
    All nodes belong to document 0. *)

Definition mounted : Refs :=
  {| button := Some 1; input := None; list_ := Some 3; popover := Some 4 |}.

Definition page (active : option Element) : Dom :=
  {| document := 0;
     ownerDocument := fun _ => 0;
     activeElement := fun _ => active;
     contains := fun node other =>
       Nat.eqb node 4 && (Nat.leb 3 other && Nat.leb other 6) |}.

(** The lowercasing of the sample page: the mapping of
    [String.prototype.toLowerCase] on Basic Latin, on the capital letters of
    Latin-1 Supplement and on the Greek capital letters, with the
    Final_Sigma rule of Unicode (a capital sigma that follows a cased letter
    and is not followed by one becomes the final small sigma).  Characters
    outside these ranges are copied; the sample texts stay inside them. *)
Definition starts_cased (s : string) : bool :=
  match s with
  | EmptyString => false
  | String c rest =>
      let n := nat_of_ascii c in
      if ((65 <=? n) && (n <=? 90)) || ((97 <=? n) && (n <=? 122)) then true
      else
        match rest with
        | EmptyString => false
        | String d _ =>
            let m := nat_of_ascii d in
            if n =? 195 then
              (128 <=? m) && (m <=? 191) && negb (m =? 151) && negb (m =? 183)
            else if n =? 206 then (145 <=? m) && (m <=? 191)
            else if n =? 207 then (128 <=? m) && (m <=? 142)
            else false
        end
  end.

Fixpoint sample_lower_from (after_cased : bool) (s : string) : string :=
  match s with
  | EmptyString => EmptyString
  | String c rest =>
      let n := nat_of_ascii c in
      if (65 <=? n) && (n <=? 90) then
        String (ascii_of_nat (n + 32)) (sample_lower_from true rest)
      else if (97 <=? n) && (n <=? 122) then
        String c (sample_lower_from true rest)
      else if n <? 128 then
        String c (sample_lower_from false rest)
      else
        match rest with
        | EmptyString => String c EmptyString
        | String d rest' =>
            let m := nat_of_ascii d in
            if (n =? 195) && (128 <=? m) && (m <=? 158) && negb (m =? 151) then
              String c (String (ascii_of_nat (m + 32)) (sample_lower_from true rest'))
            else if (n =? 206) && (m =? 163) then
              String (ascii_of_nat 207)
                (String (ascii_of_nat
                           (if after_cased && negb (starts_cased rest')
                            then 130 else 131))
                        (sample_lower_from true rest'))
            else if (n =? 206) && (145 <=? m) && (m <=? 159) then
              String c (String (ascii_of_nat (m + 32)) (sample_lower_from true rest'))
            else if (n =? 206) && (160 <=? m) && (m <=? 169) && negb (m =? 162) then
              String (ascii_of_nat 207)
                (String (ascii_of_nat (m - 32)) (sample_lower_from true rest'))
            else
              String c (String d (sample_lower_from (starts_cased s) rest'))
        end
  end.

Definition sample_lower : LowerCase := sample_lower_from false.

(** The same handles before the popover is mounted. *)
Definition unmounted : Refs :=
  {| button := Some 1; input := None; list_ := Some 3; popover := None |}.

Definition apple : ListboxOption nat :=
  {| element := Some 5; opt_value := 1; label := "Apple"; disabled := false |}.

Definition banana : ListboxOption nat :=
  {| element := Some 6; opt_value := 2; label := "Banana"; disabled := false |}.

(** An option whose label is the Greek capitals alpha, sigma, alpha. *)
Definition asa : ListboxOption nat :=
  {| element := Some 8; opt_value := 3; label := "ΑΣΑ"; disabled := false |}.

(** A context over the two fruit options. *)
Definition fruit (v nav : option nat) (q : option string) : ListboxStateData nat :=
  {| value := v; refs := mounted; options := [apple; banana];
     navigationValue := nav; typeaheadQuery := q |}.

Definition at_state (v : ListboxStates) (c : ListboxStateData nat) : State nat :=
  {| state_value := v; context := c; changed := false |}.

(** An event without payload, as [send] completes it with the refs. *)
Definition bare (t : ListboxEvents) : ListboxEvent nat :=
  {| type := t; ev_refs := mounted; ev_value := None; callback := None;
     ev_disabled := false; query := None; relatedTarget := None; data := None |}.

Definition with_value (t : ListboxEvents) (v : nat) (cb : option Callback)
  : ListboxEvent nat :=
  {| type := t; ev_refs := mounted; ev_value := Some v; callback := cb;
     ev_disabled := false; query := None; relatedTarget := None; data := None |}.

Definition with_query (t : ListboxEvents) (q : string) (cb : option Callback)
  : ListboxEvent nat :=
  {| type := t; ev_refs := mounted; ev_value := None; callback := cb;
     ev_disabled := false; query := Some q; relatedTarget := None; data := None |}.

(** A GetDerivedData event whose payload has the single key [value]. *)
Definition derive_value (v : option nat) : ListboxEvent nat :=
  {| type := GetDerivedData; ev_refs := mounted; ev_value := None; callback := None;
     ev_disabled := false; query := None; relatedTarget := None;
     data := Some {| p_value := Some v; p_refs := None; p_options := None;
                     p_navigationValue := None; p_typeaheadQuery := None |} |}.

(** A GetDerivedData event that replaces the options and the button handle. *)
Definition derive_options (opts : list (ListboxOption nat)) (b : option Element)
  : ListboxEvent nat :=
  {| type := GetDerivedData; ev_refs := mounted; ev_value := None; callback := None;
     ev_disabled := false; query := None; relatedTarget := None;
     data := Some {| p_value := None;
                     p_refs := Some {| p_button := Some b; p_input := None;
                                       p_list := None; p_popover := None |};
                     p_options := Some opts;
                     p_navigationValue := None; p_typeaheadQuery := None |} |}.

Definition blur_to (r : Refs) (related : option Element) : ListboxEvent nat :=
  {| type := Blur; ev_refs := r; ev_value := None; callback := None;
     ev_disabled := false; query := None; relatedTarget := related; data := None |}.

(** ** Runs and the ref map of [useMachine] *)

Section Runs.

Context {ListboxValue : Type} {value_eq : StrictEq ListboxValue}
        {lower : LowerCase}.

(** Successive calls of [service.send], each event with the page as it is
    when the event is sent. *)
Fixpoint send_all (s : State ListboxValue)
    (steps : list (Dom * ListboxEvent ListboxValue))
  : M (Effect ListboxValue) (State ListboxValue) :=
  match steps with
  | [] => ret s
  | (dom, event) :: rest => (s' <- send dom s event ;; send_all s' rest)%js
  end.

(** The events [send] answers: a GetDerivedData event must carry [data]. *)
Definition has_payload (event : ListboxEvent ListboxValue) : Prop :=
  type event = GetDerivedData -> data event <> None.

(** Where a run of search keys ends: Idle keeps them, an open state moves
    to NavigatingWithKeys. *)
Definition after_keys (v : ListboxStates) : ListboxStates :=
  match v with
  | Idle => Idle
  | _ => NavigatingWithKeys
  end.

End Runs.

(** A React ref object, [{ current }]. *)
Record RefObject : Type := { current : option Element }.

(** The own properties of a plain JavaScript object that inherits from
    [Object.prototype], as a table from names to values with no name
    twice.  For an object that is read with [Object.entries] the rows are
    in the order of its entries; for an object that is being filled they
    are in the order of the assignments, which is not the order JavaScript
    lists array-index names in: of such an object only the lookups are
    used. *)
Definition JsObject (A : Type) : Type := list (string * A).

(** [o[name] = v], on the own properties: an own key keeps its place and
    takes the value; a new key goes last.  The name [__proto__], when it is
    no own key, reaches the setter of [Object.prototype]: the prototype is
    replaced and no own property is made.  (What the object then inherits
    is outside this model.) *)
Fixpoint js_set {A : Type} (o : JsObject A) (name : string) (v : A) : JsObject A :=
  match o with
  | [] => if String.eqb name "__proto__" then [] else [(name, v)]
  | (k, x) :: rest =>
      if String.eqb k name then (k, v) :: rest
      else (k, x) :: js_set rest name v
  end.

(** The own property [name] of [o]; [None] when [o] has no such own key
    (reading [o[name]] would then go to the prototype). *)
Fixpoint js_get {A : Type} (o : JsObject A) (name : string) : option A :=
  match o with
  | [] => None
  | (k, x) :: rest => if String.eqb k name then Some x else js_get rest name
  end.

(** [Object.entries(refs).reduce(...)], starting from the empty object. *)
Definition unwrapRefs (refs : JsObject RefObject) : JsObject (option Element) :=
  fold_left (fun value entry => js_set value (fst entry) (current (snd entry)))
            refs [].

(** Concatenation of the typed characters. *)
Definition typed_so_far (keys : list string) : string :=
  fold_right String.append EmptyString keys.

(** An event with a value that marks its option as disabled. *)
Definition marked_disabled (t : ListboxEvents) (v : nat) (cb : option Callback)
  : ListboxEvent nat :=
  {| type := t; ev_refs := mounted; ev_value := Some v; callback := cb;
     ev_disabled := true; query := None; relatedTarget := None; data := None |}.

(** The ref map handed to [useMachine] by the listbox, on the sample page. *)
Definition sample_refs : JsObject RefObject :=
  [ ("button"%string, {| current := Some 1 |});
    ("input"%string, {| current := None |});
    ("list"%string, {| current := Some 3 |});
    ("popover"%string, {| current := Some 4 |}) ].

(** ** Properties *)

(** *** Strings and searches *)

Lemma startsWith_append (s q : string) :
  startsWith s q = true <-> exists rest, s = (q ++ rest)%string.
Proof.
  revert s. induction q as [|c q IH]; intros s; simpl.
  - split; [intros _; exists s; reflexivity | reflexivity].
  - destruct s as [|d s].
    + split; [discriminate | intros [rest H]; discriminate].
    + rewrite andb_true_iff, Ascii.eqb_eq, IH. split.
      * intros [-> [rest ->]]. exists rest. reflexivity.
      * intros [rest H]. injection H as -> ->. split; [reflexivity | exists rest; reflexivity].
Qed.

Lemma truthy_nonempty (s : string) : truthy s = true <-> s <> EmptyString.
Proof.
  destruct s; simpl; split; intros H; try reflexivity; try discriminate; congruence.
Qed.


(** [find] returns the first element, in list order, that passes the test. *)
Lemma find_first {A : Type} (f : A -> bool) (l : list A) (x : A) :
  find f l = Some x <->
  exists before after,
    l = before ++ x :: after /\ f x = true /\ Forall (fun y => f y = false) before.
Proof.
  induction l as [|a l IH]; simpl.
  - split; [discriminate | intros (b & t & H & _); destruct b; discriminate].
  - destruct (f a) eqn:Fa.
    + split.
      * intros H. injection H as ->. exists [], l. auto.
      * intros (b & t & H & Fx & Hb). destruct b as [|y b]; simpl in H.
        -- injection H as -> _. reflexivity.
        -- injection H as -> _. inversion Hb; congruence.
    + rewrite IH. split.
      * intros (b & t & -> & Fx & Hb). exists (a :: b), t. auto.
      * intros (b & t & H & Fx & Hb). destruct b as [|y b]; simpl in H.
        -- injection H as -> _. congruence.
        -- injection H as -> ->. inversion Hb; subst. exists b, t. auto.
Qed.

Lemma find_nothing {A : Type} (f : A -> bool) (l : list A) :
  find f l = None <-> Forall (fun y => f y = false) l.
Proof.
  induction l as [|a l IH]; simpl.
  - split; auto.
  - destruct (f a) eqn:Fa.
    + split; [discriminate | intros H; inversion H; congruence].
    + rewrite IH. split; [auto | intros H; inversion H; auto].
Qed.

(** Lowering two characters of Basic Latin gives the same character exactly
    when they are the same letter. *)
Lemma lower_char_same_letter (c d : ascii) :
  lower_char c = lower_char d <-> same_letter c d.
Proof.
  unfold lower_char, same_letter. cbv zeta.
  pose proof (nat_ascii_bounded c) as Bc. pose proof (nat_ascii_bounded d) as Bd.
  assert (back : forall (x : ascii) (k : nat),
             k < 256 -> (ascii_of_nat k = x <-> nat_of_ascii x = k)).
  { intros x k Hk. split; intros H.
    - rewrite <- H. apply nat_ascii_embedding. exact Hk.
    - rewrite <- H. apply ascii_nat_embedding. }
  assert (same : c = d <-> nat_of_ascii c = nat_of_ascii d).
  { split; [intros ->; reflexivity|]. intros H.
    rewrite <- (ascii_nat_embedding c), <- (ascii_nat_embedding d), H. reflexivity. }
  assert (capital : forall x, (65 <=? x) && (x <=? 90) = true <-> 65 <= x <= 90).
  { intros x. rewrite andb_true_iff, !Nat.leb_le. tauto. }
  destruct ((65 <=? nat_of_ascii c) && (nat_of_ascii c <=? 90)) eqn:Uc;
    destruct ((65 <=? nat_of_ascii d) && (nat_of_ascii d <=? 90)) eqn:Ud;
    try apply capital in Uc; try apply capital in Ud;
    try (apply not_true_iff_false in Uc; rewrite capital in Uc);
    try (apply not_true_iff_false in Ud; rewrite capital in Ud).
  - split.
    + intros H. apply (back _ (nat_of_ascii c + 32)) in H; [|lia].
      rewrite (nat_ascii_embedding (nat_of_ascii d + 32)) in H by lia.
      left. apply same. lia.
    + intros H. apply (back _ (nat_of_ascii c + 32)); [lia|].
      rewrite (nat_ascii_embedding (nat_of_ascii d + 32)) by lia.
      rewrite same in H. lia.
  - split.
    + intros H. apply (back _ (nat_of_ascii c + 32)) in H; [|lia].
      right. left. lia.
    + intros H. apply (back _ (nat_of_ascii c + 32)); [lia|].
      rewrite same in H. lia.
  - split.
    + intros H. symmetry in H. apply (back _ (nat_of_ascii d + 32)) in H; [|lia].
      right. right. lia.
    + intros H. symmetry. apply (back _ (nat_of_ascii d + 32)); [lia|].
      rewrite same in H. lia.
  - rewrite same. lia.
Qed.

(** On lowered Basic Latin text, [startsWith] is the prefix test that
    ignores letter case. *)
Lemma startsWith_ascii_fold (s q : string) :
  startsWith (ascii_fold s) (ascii_fold q) = true <-> ci_prefix q s.
Proof.
  revert s. induction q as [|c q IH]; intros s; simpl.
  - split; [intros _; constructor | reflexivity].
  - destruct s as [|d s]; simpl.
    + split; [discriminate | intros H; inversion H].
    + rewrite andb_true_iff, Ascii.eqb_eq, IH, lower_char_same_letter. split.
      * intros [Hl Hp]. constructor; [|exact Hp].
        unfold same_letter in *. intuition congruence.
      * intros H. inversion H; subst. split; [|assumption].
        unfold same_letter in *. intuition congruence.
Qed.

(** The sample lowercasing has the two properties asked of the platform. *)
Lemma sample_lower_keeps_empty : keeps_empty sample_lower.
Proof.
  intros s. unfold toLowerCase, sample_lower.
  destruct s as [|c rest]; [split; reflexivity|].
  split; [|discriminate]. simpl.
  repeat match goal with
         | |- context [if ?b then _ else _] => destruct b
         | |- context [match ?r with EmptyString => _ | String _ _ => _ end] =>
             destruct r
         end; discriminate.
Qed.

Lemma sample_lower_folds_ascii : folds_ascii sample_lower.
Proof.
  intros s. unfold toLowerCase, sample_lower. generalize false.
  induction s as [|c rest IH]; intros after;
    cbn [sample_lower_from ascii_fold is_ascii]; [reflexivity|].
  rewrite andb_true_iff. intros [Hc Hrest]. unfold lower_char. cbv zeta.
  destruct ((65 <=? nat_of_ascii c) && (nat_of_ascii c <=? 90));
    [rewrite IH by exact Hrest; reflexivity|].
  destruct ((97 <=? nat_of_ascii c) && (nat_of_ascii c <=? 122));
    [rewrite IH by exact Hrest; reflexivity|].
  rewrite Hc, IH by exact Hrest. reflexivity.
Qed.

(** *** The transitions, one lemma per row of the table *)

Section Properties.

Context {ListboxValue : Type} {value_eq : StrictEq ListboxValue}
        {lower : LowerCase}.

Abbreviation Data := (ListboxStateData ListboxValue).
Abbreviation Event := (ListboxEvent ListboxValue).
Abbreviation Fx := (Effect ListboxValue).

Implicit Types (dom : Dom) (s : State ListboxValue) (ev : Event) (c : Data).

Lemma found_answers (q : string) (o : ListboxOption ListboxValue) :
  keeps_empty lower ->
  q <> EmptyString ->
  (negb (disabled o) && truthy (label o)
   && startsWith (toLowerCase (label o)) (toLowerCase q) = true
   <-> answers q o).
Proof.
  intros Hk Hq. unfold answers.
  rewrite !andb_true_iff, negb_true_iff, startsWith_append, truthy_nonempty.
  split.
  - intros [[Hd _] Hp]. auto.
  - intros [Hd [rest Hp]]. repeat split; eauto.
    intros Hl. rewrite Hl in Hp.
    rewrite (proj2 (Hk EmptyString) eq_refl) in Hp.
    destruct (toLowerCase q) eqn:E; [|discriminate].
    apply (proj1 (Hk q)) in E. contradiction.
Qed.

Lemma findOptionFromTypeahead_empty (opts : list (ListboxOption ListboxValue)) :
  findOptionFromTypeahead opts (Some EmptyString) = None
  /\ findOptionFromTypeahead opts None = None.
Proof. split; reflexivity. Qed.

Lemma findOptionFromTypeahead_find (opts : list (ListboxOption ListboxValue))
    (q : string) :
  q <> EmptyString ->
  findOptionFromTypeahead opts (Some q) =
  find (fun o => negb (disabled o) && truthy (label o)
                 && startsWith (toLowerCase (label o)) (toLowerCase q)) opts.
Proof.
  intros Hq. unfold findOptionFromTypeahead. simpl.
  destruct q; [contradiction | reflexivity].
Qed.

(** A match is never a disabled option, and its query is not empty. *)
Lemma findOptionFromTypeahead_enabled (opts : list (ListboxOption ListboxValue))
    (q : option string) (m : ListboxOption ListboxValue) :
  findOptionFromTypeahead opts q = Some m ->
  disabled m = false /\ truthy (or_empty q) = true.
Proof.
  unfold findOptionFromTypeahead.
  destruct (truthy (or_empty q)) eqn:T; simpl; [|discriminate].
  intros H. apply find_some in H. destruct H as [_ H].
  rewrite !andb_true_iff, negb_true_iff in H. tauto.
Qed.

(** UpdateAfterTypeahead without a match, in any state. *)
Lemma send_update_no_match dom s ev :
  type ev = UpdateAfterTypeahead ->
  findOptionFromTypeahead (options (context s)) (query ev) = None ->
  exists s' fx,
    send dom s ev = Some (s', fx)
    /\ state_value s' = state_value s
    /\ value (context s') = value (context s)
    /\ navigationValue (context s') = navigationValue (context s).
Proof.
  destruct s as [v c ch], ev as [ty r ev_v cb dis q rt d]. simpl.
  intros -> H.
  destruct v; unfold send, transition; cbn; rewrite ?H;
    destruct (truthy (or_empty q)); cbn; eauto 10.
Qed.

(** C6, as amended. Typeahead resolution returns the first option, in
    list order, that is not disabled and whose label, lowered by
    [toLowerCase], starts with the query lowered by [toLowerCase]; it
    returns no match exactly when the query is empty or no option
    qualifies.  For a query and a label of ASCII text an option qualifies
    exactly when it is not disabled and its label starts with the query
    once letter case is ignored.  An UpdateAfterTypeahead event whose
    query has no match leaves [value] and [navigationValue] (and the
    state) as they were, in every state. *)
Theorem typeahead_resolution (opts : list (ListboxOption ListboxValue)) (q : string) :
  keeps_empty lower ->
  (forall o,
      findOptionFromTypeahead opts (Some q) = Some o <->
      q <> EmptyString
      /\ exists before after,
           opts = before ++ o :: after
           /\ answers q o
           /\ Forall (fun x => ~ answers q x) before)
  /\ (findOptionFromTypeahead opts (Some q) = None <->
      q = EmptyString \/ Forall (fun x => ~ answers q x) opts)
  /\ (folds_ascii lower ->
      is_ascii q = true ->
      forall o : ListboxOption ListboxValue,
        is_ascii (label o) = true ->
        (answers q o <-> disabled o = false /\ ci_prefix q (label o)))
  /\ (forall dom s ev,
        type ev = UpdateAfterTypeahead ->
        findOptionFromTypeahead (options (context s)) (query ev) = None ->
        exists s' fx,
          send dom s ev = Some (s', fx)
          /\ state_value s' = state_value s
          /\ value (context s') = value (context s)
          /\ navigationValue (context s') = navigationValue (context s)).
Proof.
  intros Hk.
  assert (not_answers : forall l : list (ListboxOption ListboxValue),
             q <> EmptyString ->
             (Forall (fun y => negb (disabled y) && truthy (label y)
                               && startsWith (toLowerCase (label y)) (toLowerCase q)
                               = false) l
              <-> Forall (fun x => ~ answers q x) l)).
  { intros l Hq. rewrite !Forall_forall.
    split; intros H x Hx; specialize (H x Hx).
    - rewrite <- (found_answers _ Hk Hq). congruence.
    - apply not_true_is_false. rewrite (found_answers _ Hk Hq). exact H. }
  split; [|split; [|split]].
  - intros o. destruct q as [|a q'] eqn:Eq.
    + split; [discriminate | intros [H _]; contradiction].
    + rewrite <- Eq in *. assert (Hq : q <> EmptyString) by (subst; discriminate).
      rewrite (findOptionFromTypeahead_find opts Hq), find_first. split.
      * intros (b & t & -> & Ho & Hb). split; [exact Hq|].
        exists b, t. rewrite <- (found_answers _ Hk Hq), <- (not_answers b Hq). auto.
      * intros (_ & b & t & -> & Ho & Hb).
        exists b, t. rewrite (found_answers _ Hk Hq), (not_answers b Hq). auto.
  - destruct q as [|a q'] eqn:Eq.
    + split; [auto | reflexivity].
    + rewrite <- Eq in *. assert (Hq : q <> EmptyString) by (subst; discriminate).
      rewrite (findOptionFromTypeahead_find opts Hq), find_nothing, (not_answers opts Hq).
      split; [auto | intros [H|H]; [contradiction | exact H]].
  - intros Hf Hq o Ho. unfold answers.
    rewrite (Hf (label o) Ho), (Hf q Hq), <- startsWith_append, startsWith_ascii_fold.
    reflexivity.
  - intros dom s ev. apply send_update_no_match.
Qed.

(** Blur in an open state: the cascade of three entries. *)
Lemma send_blur dom s ev :
  isOpen (state_value s) = true ->
  type ev = Blur ->
  send dom s ev =
  Some
    (if listboxLostFocus dom (context s) ev then
       {| state_value := Idle;
          context := set_typeaheadQuery None (context s);
          changed := true |}
     else if optionIsActive dom (context s) ev then
       {| state_value := stay_navigating (state_value s);
          context := context s;
          changed := negb (same_state (stay_navigating (state_value s)) (state_value s)) |}
     else
       {| state_value := Interacting;
          context := set_typeaheadQuery None (context s);
          changed := true |},
     []).
Proof.
  destruct s as [v c ch], ev as [ty r evv cb dis q rt d]. simpl.
  intros Hopen ->.
  destruct v; try discriminate Hopen;
    unfold send, transition; cbn -[listboxLostFocus optionIsActive];
    destruct (listboxLostFocus _ _ _); cbn -[optionIsActive]; try reflexivity;
    destruct (optionIsActive _ _ _); reflexivity.
Qed.

(** OptionFinishClick, KeyDownEnter and KeyDownSpace in an open state, the
    guard [optionIsSelectable] holding. *)
Lemma send_commit dom s ev :
  isOpen (state_value s) = true ->
  In (type ev) [OptionFinishClick; KeyDownEnter; KeyDownSpace] ->
  ev_disabled ev = false ->
  navigationValue (context s) <> None ->
  send dom s ev =
  Some ({| state_value := Idle;
           context := {| value := ev_value ev;
                         refs := refs (context s);
                         options := options (context s);
                         navigationValue := navigationValue (context s);
                         typeaheadQuery := None |};
           changed := true |},
        match callback ev with
        | Some cb => [Call cb (ev_value ev)]
        | None => []
        end
        ++ match button (ev_refs ev) with
           | Some b => [Focus b]
           | None => []
           end).
Proof.
  destruct s as [v [val rfs opts nav tq] ch], ev as [ty [b i l p] evv cb dis q rt d].
  simpl. intros Hopen Hty -> Hnav.
  destruct nav as [n|]; [|contradiction].
  destruct v; try discriminate Hopen;
    destruct Hty as [<-|[<-|[<-|[]]]]; destruct cb, b; reflexivity.
Qed.

(** The same events when the guard fails: the event is dropped. *)
Lemma send_commit_blocked dom s ev :
  isOpen (state_value s) = true ->
  In (type ev) [OptionFinishClick; KeyDownEnter; KeyDownSpace] ->
  ev_disabled ev = true \/ navigationValue (context s) = None ->
  dropped (send dom s ev) s
    (if ev_disabled ev then [ConsoleLog "BLOCKED"%string] else []).
Proof.
  destruct s as [v [val rfs opts nav tq] ch], ev as [ty [b i l p] evv cb dis q rt d].
  unfold dropped. simpl. intros Hopen Hty Hblocked.
  destruct v; try discriminate Hopen;
    destruct Hty as [<-|[<-|[<-|[]]]];
    destruct dis; try reflexivity;
    destruct Hblocked as [H|H]; try discriminate H; rewrite H; reflexivity.
Qed.

(** KeyDownSearch in Navigating, NavigatingWithKeys and Searching. *)
Lemma send_keyDownSearch dom s ev (ch : string) :
  hasTypeahead (state_value s) = true ->
  type ev = KeyDownSearch ->
  query ev = Some ch ->
  send dom s ev =
  Some ({| state_value := NavigatingWithKeys;
           context := {| value := value (context s);
                         refs := refs (context s);
                         options := options (context s);
                         navigationValue := navigationValue (context s);
                         typeaheadQuery :=
                           Some (match typeaheadQuery (context s) with
                                 | Some typed => (typed ++ ch)%string
                                 | None => ch
                                 end) |};
           changed := true |},
        []).
Proof.
  destruct s as [v [val rfs opts nav tq] ch'], ev as [ty [b i l p] evv cb dis q rt d].
  simpl. intros Hv -> ->.
  destruct v; try discriminate Hv; destruct tq; reflexivity.
Qed.

(** Interacting declares none of the three typeahead events. *)
Lemma send_interacting_ignores dom s ev :
  state_value s = Interacting ->
  In (type ev) [KeyDownSearch; UpdateAfterTypeahead; ClearTypeahead] ->
  dropped (send dom s ev) s [].
Proof.
  destruct s as [v c ch], ev as [ty r evv cb dis q rt d].
  unfold dropped. simpl. intros -> Hty.
  destruct Hty as [<-|[<-|[<-|[]]]]; reflexivity.
Qed.

(** UpdateAfterTypeahead in Idle, the query having a match. *)
Lemma send_update_idle dom s ev (m : ListboxOption ListboxValue) :
  state_value s = Idle ->
  type ev = UpdateAfterTypeahead ->
  findOptionFromTypeahead (options (context s)) (query ev) = Some m ->
  send dom s ev =
  Some ({| state_value := Idle;
           context := set_value (Some (opt_value m)) (context s);
           changed := true |},
        match callback ev with
        | Some cb => [Call cb (Some (opt_value m))]
        | None => []
        end).
Proof.
  destruct s as [v [val rfs opts nav tq] ch], ev as [ty r evv cb dis q rt d].
  simpl. intros -> -> H.
  destruct (findOptionFromTypeahead_enabled _ _ H) as [Hd Hq].
  unfold send, transition. cbn -[findOptionFromTypeahead].
  rewrite Hq, H, Hd. destruct cb; reflexivity.
Qed.

(** UpdateAfterTypeahead in Navigating, NavigatingWithKeys and Searching,
    the query having a match. *)
Lemma send_update_open dom s ev (m : ListboxOption ListboxValue) :
  hasTypeahead (state_value s) = true ->
  type ev = UpdateAfterTypeahead ->
  findOptionFromTypeahead (options (context s)) (query ev) = Some m ->
  send dom s ev =
  Some ({| state_value := state_value s;
           context := set_navigationValue (Some (opt_value m)) (context s);
           changed := true |},
        [RequestAnimationFrame
           (getNavigationNodeFromValue (context s) (Some (opt_value m)))]).
Proof.
  destruct s as [v [val rfs opts nav tq] ch], ev as [ty r evv cb dis q rt d].
  simpl. intros Hv -> H.
  destruct (findOptionFromTypeahead_enabled _ _ H) as [Hd Hq].
  destruct v; try discriminate Hv;
    unfold send, transition; cbn -[findOptionFromTypeahead];
    rewrite Hq, H, Hd; reflexivity.
Qed.

(** Navigate in an open state; only Searching also clears the query. *)
Lemma send_navigate dom s ev :
  isOpen (state_value s) = true ->
  type ev = Navigate ->
  send dom s ev =
  Some ({| state_value := Navigating;
           context := {| value := value (context s);
                         refs := refs (context s);
                         options := options (context s);
                         navigationValue := ev_value ev;
                         typeaheadQuery :=
                           match state_value s with
                           | Searching => None
                           | _ => typeaheadQuery (context s)
                           end |};
           changed := true |},
        [RequestAnimationFrame
           (getNavigationNodeFromValue (context s) (ev_value ev))]).
Proof.
  destruct s as [v [val rfs opts nav tq] ch], ev as [ty r evv cb dis q rt d].
  simpl. intros Hv ->.
  destruct v; try discriminate Hv; reflexivity.
Qed.

(** GetDerivedData with a payload, in any state. *)
Lemma send_getDerivedData dom s ev (d : DataPatch ListboxValue) :
  type ev = GetDerivedData ->
  data ev = Some d ->
  send dom s ev =
  Some ({| state_value := state_value s;
           context := {| value := spread (value (context s)) (p_value d);
                         refs := spread_refs (refs (context s)) (p_refs d);
                         options := spread (options (context s)) (p_options d);
                         navigationValue :=
                           spread (navigationValue (context s)) (p_navigationValue d);
                         typeaheadQuery :=
                           spread (typeaheadQuery (context s)) (p_typeaheadQuery d) |};
           changed := true |},
        []).
Proof.
  destruct s as [v c ch], ev as [ty r evv cb dis q rt d'].
  simpl. intros -> ->.
  destruct v; reflexivity.
Qed.

(** ClearTypeahead in the four states that declare it. *)
Lemma send_clearTypeahead dom s ev :
  state_value s = Idle \/ hasTypeahead (state_value s) = true ->
  type ev = ClearTypeahead ->
  send dom s ev =
  Some ({| state_value := state_value s;
           context := set_typeaheadQuery (Some EmptyString) (context s);
           changed := true |},
        []).
Proof.
  destruct s as [v c ch], ev as [ty r evv cb dis q rt d].
  simpl. intros Hv ->.
  destruct v; try reflexivity; destruct Hv; discriminate.
Qed.

(** A row without tests: the step is computed. *)
Ltac computed_row H :=
  match type of H with
  | send _ ?s ?ev = _ =>
      let v := fresh "v" in
      destruct s as [v [? ? ? ? ?] ?];
      destruct ev as [? [? ? ? ?] ? ? ? ? ? ?];
      simpl in *; subst; destruct v; try discriminate;
      cbn in H; try discriminate H;
      injection H as <- <-; left; reflexivity
  end.

(** Who writes [value]: whenever a step changes it, the event is
    ValueChange, a commit whose guard held, the resolution of
    UpdateAfterTypeahead in Idle, or a GetDerivedData payload with a
    [value] key. *)
Lemma value_written_by dom s ev s' (fx : list Fx) :
  send dom s ev = Some (s', fx) ->
  value (context s') = value (context s)
  \/ type ev = ValueChange
  \/ (isOpen (state_value s) = true
      /\ In (type ev) [OptionFinishClick; KeyDownEnter; KeyDownSpace]
      /\ ev_disabled ev = false
      /\ navigationValue (context s) <> None)
  \/ (state_value s = Idle
      /\ type ev = UpdateAfterTypeahead
      /\ exists m, findOptionFromTypeahead (options (context s)) (query ev) = Some m)
  \/ (type ev = GetDerivedData
      /\ exists d v, data ev = Some d /\ p_value d = Some v).
Proof.
  intros H.
  assert (commits :
            In (type ev) [OptionFinishClick; KeyDownEnter; KeyDownSpace] ->
            isOpen (state_value s) = true ->
            value (context s') = value (context s)
            \/ type ev = ValueChange
            \/ (isOpen (state_value s) = true
                /\ In (type ev) [OptionFinishClick; KeyDownEnter; KeyDownSpace]
                /\ ev_disabled ev = false
                /\ navigationValue (context s) <> None)
            \/ (state_value s = Idle
                /\ type ev = UpdateAfterTypeahead
                /\ exists m,
                     findOptionFromTypeahead (options (context s)) (query ev) = Some m)
            \/ (type ev = GetDerivedData
                /\ exists d v, data ev = Some d /\ p_value d = Some v)).
  { intros Hty Hopen.
    destruct (ev_disabled ev) eqn:D.
    - pose proof (send_commit_blocked dom s ev Hopen Hty (or_introl D)) as E.
      unfold dropped in E. rewrite E in H. injection H as <- _. left. reflexivity.
    - destruct (navigationValue (context s)) eqn:N.
      + right. right. left. repeat split; auto. discriminate.
      + pose proof (send_commit_blocked dom s ev Hopen Hty (or_intror N)) as E.
        unfold dropped in E. rewrite E in H. injection H as <- _. left. reflexivity. }
  destruct (type ev) eqn:Ty.
  - computed_row H.
  - computed_row H.
  - (* Blur *)
    destruct (isOpen (state_value s)) eqn:O; [|computed_row H].
    rewrite (send_blur dom s ev O Ty) in H. injection H as <- _. left.
    destruct (listboxLostFocus _ _ _); [reflexivity|].
    destruct (optionIsActive _ _ _); reflexivity.
  - computed_row H.
  - computed_row H.
  - (* GetDerivedData *)
    destruct (data ev) as [d|] eqn:D; [|computed_row H].
    destruct (p_value d) as [v|] eqn:P.
    + right. right. right. right. split; [reflexivity|]. exists d, v. auto.
    + rewrite (send_getDerivedData dom s ev Ty D) in H. injection H as <- _.
      left. cbn. rewrite P. reflexivity.
  - computed_row H.
  - (* KeyDownEnter *)
    destruct (isOpen (state_value s)) eqn:O; [|computed_row H].
    apply commits; cbn; auto.
  - (* KeyDownSpace *)
    destruct (isOpen (state_value s)) eqn:O; [|computed_row H].
    apply commits; cbn; auto.
  - computed_row H.
  - computed_row H.
  - computed_row H.
  - computed_row H.
  - computed_row H.
  - computed_row H.
  - right. left. reflexivity.
  - computed_row H.
  - (* OptionFinishClick *)
    destruct (isOpen (state_value s)) eqn:O; [|computed_row H].
    apply commits; cbn; auto.
  - computed_row H.
  - computed_row H.
  - (* UpdateAfterTypeahead *)
    destruct (findOptionFromTypeahead (options (context s)) (query ev)) as [m|] eqn:F.
    + destruct (state_value s) eqn:V.
      * right. right. right. left. eauto.
      * rewrite (send_update_open dom s ev (m:=m)) in H by (rewrite ?V; auto).
        injection H as <- _. left. reflexivity.
      * rewrite (send_update_open dom s ev (m:=m)) in H by (rewrite ?V; auto).
        injection H as <- _. left. reflexivity.
      * rewrite (send_update_open dom s ev (m:=m)) in H by (rewrite ?V; auto).
        injection H as <- _. left. reflexivity.
      * pose proof (send_interacting_ignores dom s ev V) as E.
        unfold dropped in E. rewrite E in H by (rewrite Ty; cbn; auto).
        injection H as <- _. left. reflexivity.
    + destruct (send_update_no_match dom s ev Ty F) as (s2 & fx2 & E & _ & Hv & _).
      rewrite E in H. injection H as <- _. left. exact Hv.
Qed.

(** Every event is answered, apart from a GetDerivedData without payload. *)
Lemma send_defined dom s ev :
  (type ev = GetDerivedData -> data ev <> None) ->
  exists s' (fx : list Fx), send dom s ev = Some (s', fx).
Proof.
  intros Hd.
  assert (commits :
            In (type ev) [OptionFinishClick; KeyDownEnter; KeyDownSpace] ->
            isOpen (state_value s) = true ->
            exists s' (fx : list Fx), send dom s ev = Some (s', fx)).
  { intros Hty Hopen.
    destruct (ev_disabled ev) eqn:D.
    - pose proof (send_commit_blocked dom s ev Hopen Hty (or_introl D)) as E.
      unfold dropped in E. eauto.
    - destruct (navigationValue (context s)) eqn:N.
      + rewrite (send_commit dom s ev Hopen Hty D) by (rewrite N; discriminate). eauto.
      + pose proof (send_commit_blocked dom s ev Hopen Hty (or_intror N)) as E.
        unfold dropped in E. eauto. }
  destruct (type ev) eqn:Ty;
    try (destruct s as [v [? ? ? ? ?] ?], ev as [? [? ? ? ?] ? ? ? ? ? ?];
         simpl in Ty; subst; destruct v; cbn; eauto; fail).
  - (* Blur *)
    destruct (isOpen (state_value s)) eqn:O.
    + rewrite (send_blur dom s ev O Ty). eauto.
    + destruct s as [v c ch], ev as [? ? ? ? ? ? ? ?]. simpl in *. subst.
      destruct v; try discriminate. cbn. eauto.
  - (* GetDerivedData *)
    destruct (data ev) as [d|] eqn:D.
    + rewrite (send_getDerivedData dom s ev Ty D). eauto.
    + exfalso. apply Hd; reflexivity.
  - (* KeyDownEnter *)
    destruct (isOpen (state_value s)) eqn:O; [apply commits; cbn; auto|].
    destruct s as [v c ch], ev as [? ? ? ? ? ? ? ?]. simpl in *. subst.
    destruct v; try discriminate. cbn. eauto.
  - (* KeyDownSpace *)
    destruct (isOpen (state_value s)) eqn:O; [apply commits; cbn; auto|].
    destruct s as [v c ch], ev as [? ? ? ? ? ? ? ?]. simpl in *. subst.
    destruct v; try discriminate. cbn. eauto.
  - (* OptionFinishClick *)
    destruct (isOpen (state_value s)) eqn:O; [apply commits; cbn; auto|].
    destruct s as [v c ch], ev as [? ? ? ? ? ? ? ?]. simpl in *. subst.
    destruct v; try discriminate. cbn. eauto.
  - (* UpdateAfterTypeahead *)
    destruct (findOptionFromTypeahead (options (context s)) (query ev)) as [m|] eqn:F.
    + destruct (state_value s) eqn:V.
      * rewrite (send_update_idle dom s ev (m:=m)) by auto. eauto.
      * rewrite (send_update_open dom s ev (m:=m)) by (rewrite ?V; auto). eauto.
      * rewrite (send_update_open dom s ev (m:=m)) by (rewrite ?V; auto). eauto.
      * rewrite (send_update_open dom s ev (m:=m)) by (rewrite ?V; auto). eauto.
      * pose proof (send_interacting_ignores dom s ev V) as E.
        unfold dropped in E. rewrite E by (rewrite Ty; cbn; auto). eauto.
    + destruct (send_update_no_match dom s ev Ty F) as (s2 & fx2 & E & _). eauto.
Qed.

(** *** The claims *)

(** C1, as amended. In every open state a Blur event is resolved by three
    entries tried in order: (a) when [listboxLostFocus] holds, the machine
    goes to Idle and clears the typeahead query; otherwise (b) when the
    active element is one of the tracked options, Interacting returns to
    Navigating and the other states stay, the context untouched; otherwise
    (c) the machine goes to Interacting and clears the query.  In
    particular, with a popover handle present, the active element of the
    button's document different from the list, and a relatedTarget outside
    the popover, Blur leads to Idle with the query cleared. *)
Theorem blur_cascade dom s ev :
  isOpen (state_value s) = true ->
  type ev = Blur ->
  (listboxLostFocus dom (context s) ev = true ->
   steps_to (send dom s ev) Idle (set_typeaheadQuery None (context s)) [])
  /\ (listboxLostFocus dom (context s) ev = false ->
      optionIsActive dom (context s) ev = true ->
      steps_to (send dom s ev) (stay_navigating (state_value s)) (context s) [])
  /\ (listboxLostFocus dom (context s) ev = false ->
      optionIsActive dom (context s) ev = false ->
      steps_to (send dom s ev) Interacting (set_typeaheadQuery None (context s)) [])
  /\ (forall p t,
        popover (ev_refs ev) = Some p ->
        relatedTarget ev = Some t ->
        contains dom p t = false ->
        same_node (activeElement dom (owner_or_document dom (button (ev_refs ev))))
                  (list_ (ev_refs ev)) = false ->
        steps_to (send dom s ev) Idle (set_typeaheadQuery None (context s)) []).
Proof.
  intros Hopen Hty. rewrite (send_blur dom s ev Hopen Hty). unfold steps_to.
  repeat split.
  - intros ->. eauto.
  - intros -> ->. eauto.
  - intros -> ->. eauto.
  - intros p t Hp Ht Hout Hlist.
    assert (L : listboxLostFocus dom (context s) ev = true).
    { unfold listboxLostFocus. rewrite Hty, Hlist, Hp, Ht. simpl.
      rewrite Hout. reflexivity. }
    rewrite L. eauto.
Qed.

(** C2. In each open state, OptionFinishClick, KeyDownEnter and
    KeyDownSpace commit when [navigationValue] is not null and the event
    does not mark the option disabled: [value] becomes the event's value,
    the event's callback (when it has one) is called with that value, the
    button is focused, the typeahead query becomes null and the machine
    goes to Idle.  When the guard fails the event is dropped: the state and
    the whole context, [value] included, stay as they were and no callback
    runs. *)
Theorem commit_or_blocked dom s ev :
  isOpen (state_value s) = true ->
  In (type ev) [OptionFinishClick; KeyDownEnter; KeyDownSpace] ->
  (ev_disabled ev = false ->
   navigationValue (context s) <> None ->
   steps_to (send dom s ev) Idle
     {| value := ev_value ev;
        refs := refs (context s);
        options := options (context s);
        navigationValue := navigationValue (context s);
        typeaheadQuery := None |}
     (match callback ev with
      | Some cb => [Call cb (ev_value ev)]
      | None => []
      end
      ++ match button (ev_refs ev) with
         | Some b => [Focus b]
         | None => []
         end))
  /\ (ev_disabled ev = true \/ navigationValue (context s) = None ->
      dropped (send dom s ev) s
        (if ev_disabled ev then [ConsoleLog "BLOCKED"%string] else [])).
Proof.
  intros Hopen Hty. split.
  - intros Hd Hnav. rewrite (send_commit dom s ev Hopen Hty Hd Hnav).
    unfold steps_to. eauto.
  - intros Hblocked. exact (send_commit_blocked dom s ev Hopen Hty Hblocked).
Qed.

(** C3, as amended. For a Blur event whose refs carry no popover handle,
    [listboxLostFocus] evaluates to false: a missing popover counts as
    focus not having left.  From every open state the cascade therefore
    skips its Idle entry and the machine stays open: it keeps navigating
    when the active element is a tracked option and goes to Interacting
    otherwise. *)
Theorem blur_without_popover dom s ev :
  type ev = Blur ->
  popover (ev_refs ev) = None ->
  listboxLostFocus dom (context s) ev = false
  /\ (isOpen (state_value s) = true ->
      exists s',
        send dom s ev = Some (s', [])
        /\ isOpen (state_value s') = true
        /\ state_value s' =
           (if optionIsActive dom (context s) ev
            then stay_navigating (state_value s)
            else Interacting)).
Proof.
  intros Hty Hp.
  assert (L : listboxLostFocus dom (context s) ev = false).
  { unfold listboxLostFocus. rewrite Hty, Hp. apply andb_false_r. }
  split; [exact L|].
  intros Hopen. rewrite (send_blur dom s ev Hopen Hty), L.
  destruct (optionIsActive dom (context s) ev).
  - eexists. repeat split. destruct (state_value s); auto.
  - eexists. repeat split.
Qed.

(** C4, as amended. Navigating, NavigatingWithKeys and Searching handle
    KeyDownSearch(char) by going to NavigatingWithKeys and appending the
    character to the accumulated typeahead query (a null query counting as
    empty).  Interacting declares no KeyDownSearch transition: there the
    event is dropped. *)
Theorem keyDownSearch_appends dom s ev (ch : string) :
  type ev = KeyDownSearch ->
  query ev = Some ch ->
  (hasTypeahead (state_value s) = true ->
   steps_to (send dom s ev) NavigatingWithKeys
     {| value := value (context s);
        refs := refs (context s);
        options := options (context s);
        navigationValue := navigationValue (context s);
        typeaheadQuery :=
          Some (match typeaheadQuery (context s) with
                | Some typed => (typed ++ ch)%string
                | None => ch
                end) |}
     [])
  /\ (state_value s = Interacting -> dropped (send dom s ev) s []).
Proof.
  intros Hty Hq. split.
  - intros Hv. rewrite (send_keyDownSearch dom s ev Hv Hty Hq).
    unfold steps_to. eauto.
  - intros Hv. apply send_interacting_ignores; [exact Hv|].
    rewrite Hty. cbn. auto.
Qed.

(** C5, as amended. When an UpdateAfterTypeahead event whose query has a
    match is processed: in Idle the value of the match is stored in [value]
    and the event's callback (when it has one) is called with it, the
    machine staying in Idle; in Navigating, NavigatingWithKeys and Searching
    only [navigationValue] is set to the match, [value] and the state are
    left as they were and the focus of the option is scheduled; Interacting
    declares no UpdateAfterTypeahead transition and drops the event.  With the
    options Apple (value 1) and Banana (value 2), KeyDownSearch("b")
    followed by UpdateAfterTypeahead with query "b" from Idle results in
    value 2 and one call of the callback, with 2. *)
Theorem updateAfterTypeahead_resolves dom :
  (forall s ev (m : ListboxOption ListboxValue),
      type ev = UpdateAfterTypeahead ->
      findOptionFromTypeahead (options (context s)) (query ev) = Some m ->
      (state_value s = Idle ->
       steps_to (send dom s ev) Idle
         {| value := Some (opt_value m);
            refs := refs (context s);
            options := options (context s);
            navigationValue := navigationValue (context s);
            typeaheadQuery := typeaheadQuery (context s) |}
         (match callback ev with
          | Some cb => [Call cb (Some (opt_value m))]
          | None => []
          end))
      /\ (hasTypeahead (state_value s) = true ->
          steps_to (send dom s ev) (state_value s)
            {| value := value (context s);
               refs := refs (context s);
               options := options (context s);
               navigationValue := Some (opt_value m);
               typeaheadQuery := typeaheadQuery (context s) |}
            [RequestAnimationFrame
               (getNavigationNodeFromValue (context s) (Some (opt_value m)))])
      /\ (state_value s = Interacting -> dropped (send dom s ev) s []))
  /\ (forall (v : option nat) (cb : Callback),
        exists s1 : State nat,
          send (lower := sample_lower) dom (at_state Idle (fruit v None None))
               (with_query KeyDownSearch "b" None) = Some (s1, [])
          /\ steps_to (send (lower := sample_lower) dom s1
                            (with_query UpdateAfterTypeahead "b" (Some cb)))
                      Idle (fruit (Some 2) None (Some "b"%string))
                      [Call cb (Some 2)]).
Proof.
  unfold steps_to. split.
  - intros s ev m Hty Hm. split; [|split].
    + intros Hv. rewrite (send_update_idle dom s ev Hv Hty Hm). eauto.
    + intros Hv. rewrite (send_update_open dom s ev Hv Hty Hm). eauto.
    + intros Hv. apply send_interacting_ignores; [exact Hv|].
      rewrite Hty. cbn. auto.
  - intros v cb. eexists. split; [reflexivity|]. eexists. repeat split.
Qed.

(** C7, as amended. In every open state Navigate(value) sets
    [navigationValue] to the event's value, schedules the focus of that
    option and goes to Navigating.  Only from Searching does it also clear
    the typeahead query; from Interacting, Navigating and
    NavigatingWithKeys the query is left as it was. *)
Theorem navigate_by_pointer dom s ev :
  isOpen (state_value s) = true ->
  type ev = Navigate ->
  steps_to (send dom s ev) Navigating
    {| value := value (context s);
       refs := refs (context s);
       options := options (context s);
       navigationValue := ev_value ev;
       typeaheadQuery :=
         match state_value s with
         | Searching => None
         | _ => typeaheadQuery (context s)
         end |}
    [RequestAnimationFrame (getNavigationNodeFromValue (context s) (ev_value ev))].
Proof.
  intros Hopen Hty. rewrite (send_navigate dom s ev Hopen Hty).
  unfold steps_to. eauto.
Qed.

(** C8. In every state, a GetDerivedData event with a payload leaves the
    state value as it was, and the new context is the old one overwritten,
    key by key, with the keys the payload has; [refs] is merged one level
    deep: each handle is the payload's when the payload's [refs] has that
    key, and the old one otherwise. *)
Theorem getDerivedData_merges dom s ev (d : DataPatch ListboxValue) :
  type ev = GetDerivedData ->
  data ev = Some d ->
  exists s',
    send dom s ev = Some (s', [])
    /\ state_value s' = state_value s
    /\ value (context s') =
       match p_value d with Some v => v | None => value (context s) end
    /\ options (context s') =
       match p_options d with Some o => o | None => options (context s) end
    /\ navigationValue (context s') =
       match p_navigationValue d with
       | Some n => n
       | None => navigationValue (context s)
       end
    /\ typeaheadQuery (context s') =
       match p_typeaheadQuery d with
       | Some q => q
       | None => typeaheadQuery (context s)
       end
    /\ forall k,
         ref_at k (refs (context s')) =
         match patch_at k (p_refs d) with
         | Some handle => handle
         | None => ref_at k (refs (context s))
         end.
Proof.
  intros Hty Hd. rewrite (send_getDerivedData dom s ev Hty Hd).
  eexists. repeat split.
  intros k. cbn. destruct (p_refs d) as [r|]; destruct k; reflexivity.
Qed.

(** C9, as amended. [value] is written only by ValueChange, by a commit
    (OptionFinishClick, KeyDownEnter, KeyDownSpace in an open state with
    the guard holding), by the resolution of UpdateAfterTypeahead in Idle,
    and by a GetDerivedData payload that has a [value] key; every other
    step leaves [value] as it was.  In particular Idle, ButtonMouseDown,
    Navigating, KeyDownEscape, Idle ends with the [value] it started
    with. *)
Theorem value_written_only_by dom :
  (forall s ev,
      (type ev = GetDerivedData -> data ev <> None) ->
      exists s' (fx : list Fx),
        send dom s ev = Some (s', fx)
        /\ (value (context s') = value (context s)
            \/ type ev = ValueChange
            \/ (isOpen (state_value s) = true
                /\ In (type ev) [OptionFinishClick; KeyDownEnter; KeyDownSpace]
                /\ ev_disabled ev = false
                /\ navigationValue (context s) <> None)
            \/ (state_value s = Idle
                /\ type ev = UpdateAfterTypeahead
                /\ exists m,
                     findOptionFromTypeahead (options (context s)) (query ev)
                     = Some m)
            \/ (type ev = GetDerivedData
                /\ exists d v, data ev = Some d /\ p_value d = Some v)))
  /\ (forall s ev dom' ev',
        state_value s = Idle ->
        type ev = ButtonMouseDown ->
        type ev' = KeyDownEscape ->
        exists s1 (fx1 : list Fx) s2 (fx2 : list Fx),
          send dom s ev = Some (s1, fx1)
          /\ state_value s1 = Navigating
          /\ send dom' s1 ev' = Some (s2, fx2)
          /\ state_value s2 = Idle
          /\ value (context s2) = value (context s)).
Proof.
  split.
  - intros s ev Hd. destruct (send_defined dom s ev Hd) as (s' & fx & E).
    exists s', fx. split; [exact E|]. exact (value_written_by dom s ev E).
  - intros s ev dom' ev' Hv Hty Hty'.
    destruct s as [v c ch], ev as [? [? ? ? ?] ? ? ? ? ? ?],
             ev' as [? [? ? ? ?] ? ? ? ? ? ?].
    simpl in *. subst. do 4 eexists. repeat split.
Qed.

(** C10, as amended. The two clearing actions leave different contexts:
    the action of ClearTypeahead sets [typeaheadQuery] to the empty string,
    while [clearTypeaheadQuery], run by the commit and Blur paths, sets it
    to null.  In Idle, Navigating, NavigatingWithKeys and Searching a
    ClearTypeahead event is accepted and the state published has the empty
    string, not null, as its query; Interacting declares no ClearTypeahead
    transition and drops the event, the query staying as it was. *)
Theorem clearTypeahead_leaves_empty_string dom s ev :
  handleActions [clearTypeahead] (context s) ev
  = Some (([], set_typeaheadQuery (Some EmptyString) (context s), true), [])
  /\ handleActions [clearTypeaheadQuery] (context s) ev
     = Some (([], set_typeaheadQuery None (context s), true), [])
  /\ typeaheadQuery (set_typeaheadQuery (Some EmptyString) (context s))
     <> typeaheadQuery (set_typeaheadQuery None (context s))
  /\ (type ev = ClearTypeahead ->
      state_value s = Idle \/ hasTypeahead (state_value s) = true ->
      steps_to (send dom s ev) (state_value s)
        {| value := value (context s);
           refs := refs (context s);
           options := options (context s);
           navigationValue := navigationValue (context s);
           typeaheadQuery := Some EmptyString |}
        [])
  /\ (type ev = ClearTypeahead ->
      state_value s = Interacting ->
      dropped (send dom s ev) s [])
  /\ (isOpen (state_value s) = true ->
      In (type ev) [OptionFinishClick; KeyDownEnter; KeyDownSpace] ->
      ev_disabled ev = false ->
      navigationValue (context s) <> None ->
      exists s' (fx : list Fx),
        send dom s ev = Some (s', fx) /\ typeaheadQuery (context s') = None)
  /\ (isOpen (state_value s) = true ->
      type ev = Blur ->
      listboxLostFocus dom (context s) ev = true
      \/ optionIsActive dom (context s) ev = false ->
      exists s' (fx : list Fx),
        send dom s ev = Some (s', fx) /\ typeaheadQuery (context s') = None).
Proof.
  repeat split.
  - cbn. discriminate.
  - intros Hty Hv. rewrite (send_clearTypeahead dom s ev Hv Hty).
    unfold steps_to. eexists. repeat split.
  - intros Hty Hv. apply send_interacting_ignores; [exact Hv|].
    rewrite Hty. cbn. auto.
  - intros Hopen Hty Hdis Hnav. rewrite (send_commit dom s ev Hopen Hty Hdis Hnav).
    eexists. eexists. split; reflexivity.
  - intros Hopen Hty Hg. rewrite (send_blur dom s ev Hopen Hty).
    destruct (listboxLostFocus dom (context s) ev).
    + eexists. eexists. split; reflexivity.
    + destruct Hg as [Hg|Hg]; [discriminate|]. rewrite Hg.
      eexists. eexists. split; reflexivity.
Qed.

End Properties.

(** *** The claims on the sample page *)

Section SamplePage.

#[local] Existing Instance sample_lower.

(** C1 at three Blur events: focus gone to node 7 outside the popover;
    focus on the option node 5, from Interacting; focus on the list while
    the event names node 7. *)
Lemma blur_cascade_witness :
  steps_to (send (page (Some 7)) (at_state Navigating (fruit None None (Some "a"%string)))
                 (blur_to mounted (Some 7)))
           Idle (fruit None None None) []
  /\ steps_to (send (page (Some 5)) (at_state Interacting (fruit None None (Some "a"%string)))
                    (blur_to mounted (Some 5)))
              Navigating (fruit None None (Some "a"%string)) []
  /\ steps_to (send (page (Some 3)) (at_state Searching (fruit None None (Some "a"%string)))
                    (blur_to mounted None))
              Interacting (fruit None None None) [].
Proof.
  split; [|split].
  - exact (proj2 (proj2 (proj2
             (@blur_cascade nat _ _ (page (Some 7))
                (at_state Navigating (fruit None None (Some "a"%string)))
                (blur_to mounted (Some 7)) eq_refl eq_refl)))
             4 7 eq_refl eq_refl eq_refl eq_refl).
  - exact (proj1 (proj2
             (@blur_cascade nat _ _ (page (Some 5))
                (at_state Interacting (fruit None None (Some "a"%string)))
                (blur_to mounted (Some 5)) eq_refl eq_refl))
             eq_refl eq_refl).
  - exact (proj1 (proj2 (proj2
             (@blur_cascade nat _ _ (page (Some 3))
                (at_state Searching (fruit None None (Some "a"%string)))
                (blur_to mounted None) eq_refl eq_refl)))
             eq_refl eq_refl).
Defined.

(** Against C1 as stated: the relatedTarget, node 7, is outside the popover
    and is not the list, yet the list is the active element, so
    [listboxLostFocus] fails and Blur leads to Interacting, not to Idle. *)
Lemma blur_outside_popover_list_active :
  relatedTarget (blur_to mounted (Some 7)) = Some 7
  /\ popover (ev_refs (blur_to mounted (Some 7))) = Some 4
  /\ contains (page (Some 3)) 4 7 = false
  /\ same_node (Some 7) (list_ (ev_refs (blur_to mounted (Some 7)))) = false
  /\ send (page (Some 3)) (at_state Navigating (fruit None None (Some "a"%string)))
          (blur_to mounted (Some 7))
     = Some ({| state_value := Interacting;
                context := fruit None None None;
                changed := true |}, []).
Proof. repeat split. Qed.

(** C2 at a click on Banana while it is highlighted, and at the same click
    with nothing highlighted. *)
Lemma commit_or_blocked_witness :
  steps_to (send (page None) (at_state Navigating (fruit (Some 1) (Some 2) (Some "b"%string)))
                 (with_value OptionFinishClick 2 (Some 9)))
           Idle (fruit (Some 2) (Some 2) None) [Call 9 (Some 2); Focus 1]
  /\ dropped (send (page None) (at_state Navigating (fruit (Some 1) None (Some "b"%string)))
                   (with_value OptionFinishClick 2 (Some 9)))
             (at_state Navigating (fruit (Some 1) None (Some "b"%string))) [].
Proof.
  split.
  - apply (proj1 (@commit_or_blocked nat _ _ (page None)
                    (at_state Navigating (fruit (Some 1) (Some 2) (Some "b"%string)))
                    (with_value OptionFinishClick 2 (Some 9))
                    eq_refl (or_introl eq_refl))).
    + reflexivity.
    + simpl. discriminate.
  - apply (proj2 (@commit_or_blocked nat _ _ (page None)
                    (at_state Navigating (fruit (Some 1) None (Some "b"%string)))
                    (with_value OptionFinishClick 2 (Some 9))
                    eq_refl (or_introl eq_refl))).
    right. reflexivity.
Defined.

(** C3 at a Blur sent before the popover is mounted. *)
Lemma blur_without_popover_witness :
  listboxLostFocus (page (Some 7)) (fruit None None None) (blur_to unmounted (Some 7)) = false
  /\ exists s',
       send (page (Some 7)) (at_state Navigating (fruit None None None))
            (blur_to unmounted (Some 7)) = Some (s', [])
       /\ isOpen (state_value s') = true
       /\ state_value s' = Interacting.
Proof.
  pose proof (@blur_without_popover nat _ _ (page (Some 7))
                (at_state Navigating (fruit None None None))
                (blur_to unmounted (Some 7)) eq_refl eq_refl) as [L H].
  split; [exact L | exact (H eq_refl)].
Defined.

(** Against C3 as stated: without a popover handle the guard is false and
    Blur from Navigating leads to Interacting, not to Idle, although focus
    went to node 7. *)
Lemma blur_unmounted_stays_open :
  popover (ev_refs (blur_to unmounted (Some 7))) = None
  /\ listboxLostFocus (page (Some 7)) (fruit None None None)
                      (blur_to unmounted (Some 7)) = false
  /\ send (page (Some 7)) (at_state Navigating (fruit None None None))
          (blur_to unmounted (Some 7))
     = Some ({| state_value := Interacting;
                context := fruit None None None;
                changed := true |}, []).
Proof. repeat split. Qed.

(** C4 at the key "b" typed in Navigating after "a". *)
Lemma keyDownSearch_appends_witness :
  steps_to (send (page None) (at_state Navigating (fruit None None (Some "a"%string)))
                 (with_query KeyDownSearch "b" None))
           NavigatingWithKeys (fruit None None (Some "ab"%string)) []
  /\ dropped (send (page None) (at_state Interacting (fruit None None (Some "a"%string)))
                   (with_query KeyDownSearch "b" None))
             (at_state Interacting (fruit None None (Some "a"%string))) [].
Proof.
  pose proof (@keyDownSearch_appends nat _ _ (page None)
                (at_state Navigating (fruit None None (Some "a"%string)))
                (with_query KeyDownSearch "b" None) "b"%string eq_refl eq_refl) as H1.
  pose proof (@keyDownSearch_appends nat _ _ (page None)
                (at_state Interacting (fruit None None (Some "a"%string)))
                (with_query KeyDownSearch "b" None) "b"%string eq_refl eq_refl) as H2.
  split; [exact (proj1 H1 eq_refl) | exact (proj2 H2 eq_refl)].
Defined.

(** Against C4 as stated: in Interacting the key "b" changes neither the
    state nor the query. *)
Lemma interacting_ignores_search :
  send (page None) (at_state Interacting (fruit None None (Some "a"%string)))
       (with_query KeyDownSearch "b" None)
  = Some ({| state_value := Interacting;
             context := fruit None None (Some "a"%string);
             changed := false |}, []).
Proof. reflexivity. Qed.

(** C5 at the query "b" over Apple and Banana, in Idle, in Navigating and
    in Interacting. *)
Lemma updateAfterTypeahead_resolves_witness :
  steps_to (send (page None) (at_state Idle (fruit (Some 1) None (Some "b"%string)))
                 (with_query UpdateAfterTypeahead "b" (Some 9)))
           Idle (fruit (Some 2) None (Some "b"%string)) [Call 9 (Some 2)]
  /\ steps_to (send (page None) (at_state Navigating (fruit (Some 1) None (Some "b"%string)))
                    (with_query UpdateAfterTypeahead "b" (Some 9)))
              Navigating (fruit (Some 1) (Some 2) (Some "b"%string))
              [RequestAnimationFrame (Some 6)]
  /\ dropped (send (page None) (at_state Interacting (fruit (Some 1) None (Some "b"%string)))
                   (with_query UpdateAfterTypeahead "b" (Some 9)))
             (at_state Interacting (fruit (Some 1) None (Some "b"%string))) [].
Proof.
  pose proof (proj1 (@updateAfterTypeahead_resolves nat _ _ (page None))
                (at_state Idle (fruit (Some 1) None (Some "b"%string)))
                (with_query UpdateAfterTypeahead "b" (Some 9)) banana
                eq_refl eq_refl) as H1.
  pose proof (proj1 (@updateAfterTypeahead_resolves nat _ _ (page None))
                (at_state Navigating (fruit (Some 1) None (Some "b"%string)))
                (with_query UpdateAfterTypeahead "b" (Some 9)) banana
                eq_refl eq_refl) as H2.
  pose proof (proj1 (@updateAfterTypeahead_resolves nat _ _ (page None))
                (at_state Interacting (fruit (Some 1) None (Some "b"%string)))
                (with_query UpdateAfterTypeahead "b" (Some 9)) banana
                eq_refl eq_refl) as H3.
  split; [exact (proj1 H1 eq_refl) | split].
  - exact (proj1 (proj2 H2) eq_refl).
  - exact (proj2 (proj2 H3) eq_refl).
Defined.

(** Against C5 as stated: in Interacting the query "b" has the match
    Banana, yet [navigationValue] stays null: the event is dropped. *)
Lemma interacting_ignores_update :
  findOptionFromTypeahead (options (fruit (Some 1) None (Some "b"%string)))
                          (Some "b"%string) = Some banana
  /\ send (page None) (at_state Interacting (fruit (Some 1) None (Some "b"%string)))
          (with_query UpdateAfterTypeahead "b" (Some 9))
     = Some ({| state_value := Interacting;
                context := fruit (Some 1) None (Some "b"%string);
                changed := false |}, []).
Proof. split; reflexivity. Qed.

(** C6 at the query "B", answered by Banana after Apple was passed over:
    "Banana" starts with "B" letter for letter, and with "b" once case is
    ignored; and at the query "x", which nothing answers. *)
Lemma typeahead_resolution_witness :
  (exists before after,
      [apple; banana] = before ++ banana :: after
      /\ answers "B" banana
      /\ Forall (fun x => ~ answers "B" x) before)
  /\ (answers "b" banana <-> disabled banana = false /\ ci_prefix "b" (label banana))
  /\ exists s' fx,
       send (page None) (at_state Navigating (fruit (Some 1) (Some 2) (Some "x"%string)))
            (with_query UpdateAfterTypeahead "x" (Some 9)) = Some (s', fx)
       /\ state_value s' = Navigating
       /\ value (context s') = Some 1
       /\ navigationValue (context s') = Some 2.
Proof.
  split; [|split].
  - exact (proj2 (proj1 (proj1 (@typeahead_resolution nat _ _ [apple; banana] "B"%string
                                  sample_lower_keeps_empty)
                           banana) eq_refl)).
  - exact (proj1 (proj2 (proj2 (@typeahead_resolution nat _ _ [apple; banana] "b"%string
                                  sample_lower_keeps_empty)))
             sample_lower_folds_ascii eq_refl banana eq_refl).
  - exact (proj2 (proj2 (proj2 (@typeahead_resolution nat _ _ [apple; banana] "x"%string
                                  sample_lower_keeps_empty)))
             (page None)
             (at_state Navigating (fruit (Some 1) (Some 2) (Some "x"%string)))
             (with_query UpdateAfterTypeahead "x" (Some 9)) eq_refl eq_refl).
Defined.

(** Against C6 as stated: the label of the enabled option starts with the
    query letter for letter, in the same case, yet there is no match: the
    sigma of the query is lowered to the final small sigma, the sigma of
    the label, followed by a letter, to the medial one. *)
Lemma final_sigma_label_not_found :
  label asa = ("ΑΣ" ++ "Α")%string
  /\ disabled asa = false
  /\ toLowerCase "ΑΣ" = "ας"%string
  /\ toLowerCase (label asa) = "ασα"%string
  /\ findOptionFromTypeahead [asa] (Some "ΑΣ"%string) = None.
Proof. repeat split. Qed.

(** C7 at a pointer move to Banana, from Searching and from Navigating. *)
Lemma navigate_by_pointer_witness :
  steps_to (send (page None) (at_state Searching (fruit None None (Some "a"%string)))
                 (with_value Navigate 2 None))
           Navigating (fruit None (Some 2) None) [RequestAnimationFrame (Some 6)]
  /\ steps_to (send (page None) (at_state Navigating (fruit None None (Some "a"%string)))
                    (with_value Navigate 2 None))
              Navigating (fruit None (Some 2) (Some "a"%string))
              [RequestAnimationFrame (Some 6)].
Proof.
  split.
  - exact (@navigate_by_pointer nat _ _ (page None)
             (at_state Searching (fruit None None (Some "a"%string)))
             (with_value Navigate 2 None) eq_refl eq_refl).
  - exact (@navigate_by_pointer nat _ _ (page None)
             (at_state Navigating (fruit None None (Some "a"%string)))
             (with_value Navigate 2 None) eq_refl eq_refl).
Defined.

(** Against C7 as stated: a pointer move in Navigating leaves the typed
    query "a" in place. *)
Lemma navigate_keeps_query :
  send (page None) (at_state Navigating (fruit None None (Some "a"%string)))
       (with_value Navigate 2 None)
  = Some ({| state_value := Navigating;
             context := fruit None (Some 2) (Some "a"%string);
             changed := true |},
          [RequestAnimationFrame (Some 6)]).
Proof. reflexivity. Qed.

(** C8 at a payload that replaces the options and nulls the button handle. *)
Lemma getDerivedData_merges_witness :
  exists s',
    send (page None) (at_state Searching (fruit (Some 1) (Some 2) (Some "a"%string)))
         (derive_options [banana] None) = Some (s', [])
    /\ state_value s' = Searching
    /\ value (context s') = Some 1
    /\ options (context s') = [banana]
    /\ navigationValue (context s') = Some 2
    /\ typeaheadQuery (context s') = Some "a"%string
    /\ refs (context s') =
       {| button := None; input := None; list_ := Some 3; popover := Some 4 |}.
Proof.
  destruct (@getDerivedData_merges nat _ _ (page None)
              (at_state Searching (fruit (Some 1) (Some 2) (Some "a"%string)))
              (derive_options [banana] None) _ eq_refl eq_refl)
    as (s' & E & Hs & Hv & Ho & Hn & Hq & Hr).
  exists s'. repeat split; try assumption.
  pose proof (Hr KButton) as Hb. pose proof (Hr KInput) as Hi.
  pose proof (Hr KList) as Hl. pose proof (Hr KPopover) as Hp.
  destruct (context s') as [? [b i l p] ? ? ?]. simpl in *. congruence.
Defined.

(** C9 at a key press that only navigates, and at the round trip from Idle
    with value 1. *)
Lemma value_written_only_by_witness :
  (exists s' fx,
      send (page None) (at_state Navigating (fruit (Some 1) None None))
           (with_value KeyDownNavigate 2 None) = Some (s', fx))
  /\ exists s1 fx1 s2 fx2,
       send (page None) (at_state Idle (fruit (Some 1) None None)) (bare ButtonMouseDown)
       = Some (s1, fx1)
       /\ state_value s1 = Navigating
       /\ send (page None) s1 (bare KeyDownEscape) = Some (s2, fx2)
       /\ state_value s2 = Idle
       /\ value (context s2) = Some 1.
Proof.
  split.
  - assert (Hd : type (with_value KeyDownNavigate 2 None) = GetDerivedData ->
                 data (with_value KeyDownNavigate 2 None) <> None)
      by (simpl; discriminate).
    destruct (proj1 (@value_written_only_by nat _ _ (page None))
                (at_state Navigating (fruit (Some 1) None None))
                (with_value KeyDownNavigate 2 None) Hd) as (s' & fx & E & _).
    exists s', fx. exact E.
  - exact (proj2 (@value_written_only_by nat _ _ (page None))
             (at_state Idle (fruit (Some 1) None None)) (bare ButtonMouseDown)
             (page None) (bare KeyDownEscape) eq_refl eq_refl eq_refl).
Defined.

(** Against C9 as stated: a GetDerivedData payload with a [value] key
    changes [value] from 1 to 7, and GetDerivedData is none of the events
    the claim lists. *)
Lemma derived_data_writes_value :
  type (derive_value (Some 7)) = GetDerivedData
  /\ value (context (at_state Idle (fruit (Some 1) None None))) = Some 1
  /\ send (page None) (at_state Idle (fruit (Some 1) None None)) (derive_value (Some 7))
     = Some ({| state_value := Idle;
                context := fruit (Some 7) None None;
                changed := true |}, []).
Proof. repeat split. Qed.

(** C10 at ClearTypeahead in Idle with a null query, and in Interacting
    after "a" was typed. *)
Lemma clearTypeahead_leaves_empty_string_witness :
  steps_to (send (page None) (at_state Idle (fruit None None None)) (bare ClearTypeahead))
           Idle (fruit None None (Some EmptyString)) []
  /\ dropped (send (page None) (at_state Interacting (fruit None None (Some "a"%string)))
                   (bare ClearTypeahead))
             (at_state Interacting (fruit None None (Some "a"%string))) [].
Proof.
  split.
  - exact (proj1 (proj2 (proj2 (proj2
             (@clearTypeahead_leaves_empty_string nat _ _ (page None)
                (at_state Idle (fruit None None None)) (bare ClearTypeahead)))))
             eq_refl (or_introl eq_refl)).
  - exact (proj1 (proj2 (proj2 (proj2 (proj2
             (@clearTypeahead_leaves_empty_string nat _ _ (page None)
                (at_state Interacting (fruit None None (Some "a"%string)))
                (bare ClearTypeahead))))))
             eq_refl eq_refl).
Defined.

(** Against C10 as stated: ClearTypeahead processed in Interacting leaves a
    null query null; the state comes back as it was. *)
Lemma interacting_ignores_clearTypeahead :
  typeaheadQuery (context (at_state Interacting (fruit None None None))) = None
  /\ send (page None) (at_state Interacting (fruit None None None)) (bare ClearTypeahead)
     = Some ({| state_value := Interacting;
                context := fruit None None None;
                changed := false |}, []).
Proof. split; reflexivity. Qed.

End SamplePage.

(** ** Further properties of the machine and its interpreter *)

Lemma bind_Some {E A B : Type} (m : M E A) (k : A -> M E B) (b : B) (fx : list E) :
  bind m k = Some (b, fx) ->
  exists a fx1 fx2, m = Some (a, fx1) /\ k a = Some (b, fx2) /\ fx = fx1 ++ fx2.
Proof.
  unfold bind. destruct m as [[a fx1]|]; [|discriminate].
  destruct (k a) as [[b' fx2]|] eqn:K; [|discriminate].
  intros H. injection H as <- <-. eauto 6.
Qed.

Lemma same_state_eq (a b : ListboxStates) : same_state a b = true <-> a = b.
Proof. destruct a, b; cbn; split; intros H; try reflexivity; discriminate H. Qed.

Section Interpreter.

Context {ListboxValue : Type} {value_eq : StrictEq ListboxValue}
        {lower : LowerCase}.

Abbreviation Data := (ListboxStateData ListboxValue).
Abbreviation Event := (ListboxEvent ListboxValue).
Abbreviation Fx := (Effect ListboxValue).

Implicit Types (dom : Dom) (s : State ListboxValue) (ev : Event) (c : Data).

(** When no assignment ran, the context is the one handed in. *)
Lemma handleActions_unassigned (acts : list (@ActionObject ListboxValue)) c ev
    (todo : list (Data -> Event -> list Fx)) c' (fx : list Fx) :
  handleActions acts c ev = Some ((todo, c', false), fx) -> c' = c.
Proof.
  revert todo c' fx. induction acts as [|a acts IH]; intros todo c' fx; simpl.
  - intros H. injection H as _ <- _. reflexivity.
  - destruct a as [assignment|f].
    + intros H. apply bind_Some in H. destruct H as (next & fx1 & fx2 & _ & H & _).
      apply bind_Some in H. destruct H as ([[n f'] b] & fx3 & fx4 & _ & H & _).
      discriminate H.
    + intros H. apply bind_Some in H. destruct H as ([[n f'] b] & fx1 & fx2 & Hr & H & _).
      injection H as <- <- -> _. exact (IH _ _ _ Hr).
Qed.

(** Whatever the transitions tried, a result not marked as changed has the
    state value and the context the step started from. *)
Lemma first_enabled_unchanged dom (v : ListboxStates) c ev
    (ts : list (@Transition ListboxValue)) s'
    (todo : list (Data -> Event -> list Fx)) (fx : list Fx) :
  first_enabled dom v c ev ts = Some ((s', todo), fx) ->
  changed s' = false ->
  state_value s' = v /\ context s' = c.
Proof.
  revert fx. induction ts as [|t ts IH]; intros fx; simpl.
  - intros H _. injection H as <- _ _. auto.
  - intros H Hch. apply bind_Some in H. destruct H as (ok & fx1 & fx2 & _ & H & _).
    destruct ok; [|exact (IH _ H Hch)].
    apply bind_Some in H. destruct H as ([[n next] assigned] & fx3 & fx4 & Hr & H & _).
    injection H as <- _ _. simpl in Hch |- *.
    apply orb_false_iff in Hch. destruct Hch as [Hch Ha].
    apply orb_false_iff in Hch. destruct Hch as [Ht _]. subst assigned.
    split.
    + destruct (target t) as [x|]; [|discriminate Ht].
      apply negb_false_iff, same_state_eq in Ht. exact Ht.
    + exact (handleActions_unassigned _ _ _ Hr).
Qed.

(** X1. A state that [send] returns without marking it as changed has the
    state value and the context of the state the event was sent to: nothing
    is modified behind an unchanged flag. *)
Theorem unchanged_flag_sound dom s ev s' (fx : list Fx) :
  send dom s ev = Some (s', fx) ->
  changed s' = false ->
  state_value s' = state_value s /\ context s' = context s.
Proof.
  unfold send, transition. intros H Hch.
  apply bind_Some in H. destruct H as ([s1 todo] & fx1 & fx2 & Hr & H & _).
  apply bind_Some in H. destruct H as ([] & fx3 & fx4 & _ & H & _).
  injection H as <- _.
  exact (first_enabled_unchanged _ _ _ _ _ Hr Hch).
Qed.

End Interpreter.

Section Rows.

Context {ListboxValue : Type} {value_eq : StrictEq ListboxValue}
        {lower : LowerCase}.

Abbreviation Data := (ListboxStateData ListboxValue).
Abbreviation Event := (ListboxEvent ListboxValue).
Abbreviation Fx := (Effect ListboxValue).

Implicit Types (dom : Dom) (s : State ListboxValue) (ev : Event) (c : Data).

(** X2. KeyDownTab, KeyDownShiftTab, OptionMouseEnter, OptionStartClick,
    PopoverPointerDown and PopoverPointerUp are declared by no state: in
    every state they are dropped, with no effect, the state value and the
    context left as they were. *)
Theorem undeclared_events_dropped dom s ev :
  In (type ev) [KeyDownTab; KeyDownShiftTab; OptionMouseEnter;
                OptionStartClick; PopoverPointerDown; PopoverPointerUp] ->
  dropped (send dom s ev) s [].
Proof.
  destruct s as [v c ch], ev as [ty r evv cb dis q rt d].
  unfold dropped. simpl. intros Hty.
  destruct Hty as [<-|[<-|[<-|[<-|[<-|[<-|[]]]]]]]; destruct v; reflexivity.
Qed.

(** ButtonMouseDown and KeyDownEscape in an open state. *)
Lemma send_close dom s ev :
  isOpen (state_value s) = true ->
  In (type ev) [ButtonMouseDown; KeyDownEscape] ->
  send dom s ev =
  Some ({| state_value := Idle; context := context s; changed := true |},
        match button (ev_refs ev) with
        | Some b => [Focus b]
        | None => []
        end).
Proof.
  destruct s as [v c ch], ev as [ty [b i l p] evv cb dis q rt d].
  simpl. intros Hopen Hty.
  destruct v; try discriminate Hopen;
    destruct Hty as [<-|[<-|[]]]; destruct b; reflexivity.
Qed.

(** X3. ButtonMouseDown and KeyDownEscape close an open listbox without
    touching the context: the machine goes to Idle, the button is focused
    when it is mounted, and [value], [navigationValue], the options and
    also the typeahead query stay exactly as they were. *)
Theorem close_keeps_context dom s ev :
  isOpen (state_value s) = true ->
  In (type ev) [ButtonMouseDown; KeyDownEscape] ->
  steps_to (send dom s ev) Idle (context s)
    (match button (ev_refs ev) with
     | Some b => [Focus b]
     | None => []
     end).
Proof.
  intros Hopen Hty. rewrite (send_close dom s ev Hopen Hty).
  unfold steps_to. eauto.
Qed.

(** KeyDownNavigate, in any state. *)
Lemma send_keyDownNavigate dom s ev :
  type ev = KeyDownNavigate ->
  send dom s ev =
  Some ({| state_value := NavigatingWithKeys;
           context := {| value := value (context s);
                         refs := refs (context s);
                         options := options (context s);
                         navigationValue := ev_value ev;
                         typeaheadQuery := None |};
           changed := true |},
        [RequestAnimationFrame
           (getNavigationNodeFromValue (context s) (ev_value ev))]).
Proof.
  destruct s as [v [val rfs opts nav tq] ch], ev as [ty r evv cb dis q rt d].
  simpl. intros ->. destruct v; reflexivity.
Qed.

(** X4. KeyDownNavigate is handled alike in all five states, Idle
    included: the machine goes to NavigatingWithKeys, [navigationValue]
    becomes the event's value, the typeahead query becomes null, and the
    focus of the option with that value is scheduled for the next frame. *)
Theorem keyDownNavigate_everywhere dom s ev :
  type ev = KeyDownNavigate ->
  steps_to (send dom s ev) NavigatingWithKeys
    {| value := value (context s);
       refs := refs (context s);
       options := options (context s);
       navigationValue := ev_value ev;
       typeaheadQuery := None |}
    [RequestAnimationFrame (getNavigationNodeFromValue (context s) (ev_value ev))].
Proof.
  intros Hty. rewrite (send_keyDownNavigate dom s ev Hty).
  unfold steps_to. eauto.
Qed.

(** ValueChange, in any state. *)
Lemma send_valueChange dom s ev :
  type ev = ValueChange ->
  send dom s ev =
  Some ({| state_value := state_value s;
           context := set_value (ev_value ev) (context s);
           changed := true |},
        match callback ev with
        | Some cb => [Call cb (ev_value ev)]
        | None => []
        end).
Proof.
  destruct s as [v [val rfs opts nav tq] ch], ev as [ty r evv cb dis q rt d].
  simpl. intros ->. destruct v; destruct cb; reflexivity.
Qed.

(** X5. ValueChange is not guarded: in every state, whether or not the
    event is marked disabled and whether or not an option is highlighted,
    [value] becomes the event's value and the event's callback (when it
    has one) is called with it; the state value and the rest of the
    context are kept. *)
Theorem valueChange_unguarded dom s ev :
  type ev = ValueChange ->
  steps_to (send dom s ev) (state_value s)
    {| value := ev_value ev;
       refs := refs (context s);
       options := options (context s);
       navigationValue := navigationValue (context s);
       typeaheadQuery := typeaheadQuery (context s) |}
    (match callback ev with
     | Some cb => [Call cb (ev_value ev)]
     | None => []
     end).
Proof.
  intros Hty. rewrite (send_valueChange dom s ev Hty).
  unfold steps_to. eauto.
Qed.

End Rows.

(** Every row of the table at once: [H] is [send dom s ev = Some (s', fx)];
    the state, the event and the tests the row depends on are split, and
    [s'] and [fx] are replaced by what the row computes. *)
Ltac every_row H :=
  match type of H with
  | send _ ?s ?ev = _ =>
      let v := fresh "v" in
      let ty := fresh "ty" in
      let nav := fresh "nav" in
      let dis := fresh "dis" in
      let d := fresh "d" in
      destruct s as [v [? ? ? nav ?] ?];
      destruct ev as [ty [? ? ? ?] ? ? dis ? ? d];
      destruct v, ty;
      unfold send, transition in H;
      cbn -[listboxLostFocus optionIsActive findOptionFromTypeahead] in H;
      unfold optionIsSelectable in H;
      cbn -[listboxLostFocus optionIsActive findOptionFromTypeahead] in H;
      repeat match type of H with
             | context [listboxLostFocus ?a ?b ?c] =>
                 destruct (listboxLostFocus a b c) eqn:?;
                 cbn -[listboxLostFocus optionIsActive findOptionFromTypeahead] in H
             | context [optionIsActive ?a ?b ?c] =>
                 destruct (optionIsActive a b c) eqn:?;
                 cbn -[listboxLostFocus optionIsActive findOptionFromTypeahead] in H
             | context [truthy (or_empty ?q)] =>
                 destruct (truthy (or_empty q)) eqn:?;
                 cbn -[listboxLostFocus optionIsActive findOptionFromTypeahead] in H
             | context [findOptionFromTypeahead ?a ?b] =>
                 destruct (findOptionFromTypeahead a b) eqn:?;
                 cbn -[listboxLostFocus optionIsActive findOptionFromTypeahead] in H
             | context [disabled ?m] =>
                 destruct (disabled m) eqn:?;
                 cbn -[listboxLostFocus optionIsActive findOptionFromTypeahead] in H
             | context [if dis then _ else _] =>
                 destruct dis;
                 cbn -[listboxLostFocus optionIsActive findOptionFromTypeahead] in H
             | context [match nav with Some _ => _ | None => _ end] =>
                 destruct nav;
                 cbn -[listboxLostFocus optionIsActive findOptionFromTypeahead] in H
             | context [match d with Some _ => _ | None => _ end] =>
                 destruct d;
                 cbn -[listboxLostFocus optionIsActive findOptionFromTypeahead] in H
             end;
      try discriminate H;
      injection H as <- <-
  end.

Section Frames.

Context {ListboxValue : Type} {value_eq : StrictEq ListboxValue}
        {lower : LowerCase}.

Abbreviation Data := (ListboxStateData ListboxValue).
Abbreviation Event := (ListboxEvent ListboxValue).
Abbreviation Fx := (Effect ListboxValue).

Implicit Types (dom : Dom) (s : State ListboxValue) (ev : Event) (c : Data).

(** X7. The registered options and the [refs] of the context are written
    by GetDerivedData only: every other event, in every state, leaves both
    as they were.  In particular the handles attached to the events are
    never stored in the context. *)
Theorem options_and_refs_frame dom s ev :
  type ev <> GetDerivedData ->
  exists s' (fx : list Fx),
    send dom s ev = Some (s', fx)
    /\ options (context s') = options (context s)
    /\ refs (context s') = refs (context s).
Proof.
  intros Hty.
  destruct (send_defined dom s ev) as (s' & fx & E); [intros H; contradiction|].
  exists s', fx. split; [exact E|].
  every_row E; cbn in *; try (split; reflexivity);
    exfalso; apply Hty; reflexivity.
Qed.

(** One step never enters Searching from another state. *)
Lemma send_not_searching dom s ev s' (fx : list Fx) :
  send dom s ev = Some (s', fx) ->
  state_value s <> Searching ->
  state_value s' <> Searching.
Proof.
  intros H Hs. every_row H; cbn in *; try discriminate;
    exfalso; apply Hs; reflexivity.
Qed.

(** X8. Searching is never entered: no transition of Idle, Navigating,
    NavigatingWithKeys or Interacting targets it, so a run of events that
    starts outside Searching (in particular at the initial state) never
    reaches it. *)
Theorem searching_never_entered s (steps : list (Dom * Event)) s' (fx : list Fx) :
  state_value s <> Searching ->
  send_all s steps = Some (s', fx) ->
  state_value s' <> Searching.
Proof.
  revert s fx. induction steps as [|[dom ev] steps IH]; intros s fx Hs; simpl.
  - intros H. injection H as <- _. exact Hs.
  - intros H. apply bind_Some in H. destruct H as (s1 & fx1 & fx2 & E & H & _).
    exact (IH s1 fx2 (send_not_searching dom s ev E Hs) H).
Qed.

(** X9. From Idle the listbox opens by ButtonMouseDown, KeyDownSpace and
    KeyDownNavigate only.  ButtonMouseDown leads to Navigating and
    KeyDownSpace to NavigatingWithKeys, both with [navigationValue] set to
    the current [value]; KeyDownNavigate leads to NavigatingWithKeys with
    [navigationValue] set to the event's value.  Every other event leaves
    the machine in Idle. *)
Theorem idle_opens_only_by dom s ev :
  state_value s = Idle ->
  has_payload ev ->
  exists s' (fx : list Fx),
    send dom s ev = Some (s', fx)
    /\ ((type ev = ButtonMouseDown
         /\ state_value s' = Navigating
         /\ navigationValue (context s') = value (context s))
        \/ (type ev = KeyDownSpace
            /\ state_value s' = NavigatingWithKeys
            /\ navigationValue (context s') = value (context s))
        \/ (type ev = KeyDownNavigate
            /\ state_value s' = NavigatingWithKeys
            /\ navigationValue (context s') = ev_value ev)
        \/ (state_value s' = Idle
            /\ ~ In (type ev) [ButtonMouseDown; KeyDownSpace; KeyDownNavigate])).
Proof.
  intros Hs Hp.
  destruct (send_defined dom s ev Hp) as (s' & fx & E).
  exists s', fx. split; [exact E|]. clear Hp.
  every_row E; cbn in *; try discriminate Hs;
    first [ left; repeat split; reflexivity
          | right; left; repeat split; reflexivity
          | right; right; left; repeat split; reflexivity
          | right; right; right; split;
            [reflexivity | intros [F|[F|[F|[]]]]; discriminate F] ].
Qed.

(** X10. An open listbox closes in exactly three ways: a Blur for which
    [listboxLostFocus] holds; a commit (OptionFinishClick, KeyDownEnter,
    KeyDownSpace) of an event not marked disabled while an option is
    highlighted; ButtonMouseDown or KeyDownEscape.  Every other event
    leaves it in one of the four open states. *)
Theorem open_closes_only_by dom s ev :
  isOpen (state_value s) = true ->
  has_payload ev ->
  exists s' (fx : list Fx),
    send dom s ev = Some (s', fx)
    /\ (state_value s' = Idle <->
        (type ev = Blur /\ listboxLostFocus dom (context s) ev = true)
        \/ (In (type ev) [OptionFinishClick; KeyDownEnter; KeyDownSpace]
            /\ ev_disabled ev = false
            /\ navigationValue (context s) <> None)
        \/ In (type ev) [ButtonMouseDown; KeyDownEscape]).
Proof.
  intros Hs Hp.
  destruct (send_defined dom s ev Hp) as (s' & fx & E).
  exists s', fx. split; [exact E|]. clear Hp.
  every_row E; cbn in *; try discriminate Hs;
    (split;
     [ intros F; try discriminate F;
       first [ left; split; [reflexivity | assumption]
             | right; left; repeat split; auto; discriminate
             | right; right; auto ]
     | intros F; try reflexivity; exfalso;
       repeat match goal with
              | F : _ \/ _ |- _ => destruct F as [F|F]
              | F : _ /\ _ |- _ => destruct F
              | F : False |- _ => destruct F
              end;
       try discriminate; try congruence ]).
Qed.

End Frames.

Lemma append_assoc (a b c : string) :
  ((a ++ b) ++ c)%string = (a ++ (b ++ c))%string.
Proof. induction a as [|x a IH]; simpl; [reflexivity | rewrite IH; reflexivity]. Qed.

Lemma append_empty_r (a : string) : (a ++ EmptyString)%string = a.
Proof. induction a as [|x a IH]; simpl; [reflexivity | rewrite IH; reflexivity]. Qed.

Section Sequences.

Context {ListboxValue : Type} {value_eq : StrictEq ListboxValue}
        {lower : LowerCase}.

Abbreviation Data := (ListboxStateData ListboxValue).
Abbreviation Event := (ListboxEvent ListboxValue).
Abbreviation Fx := (Effect ListboxValue).

Implicit Types (dom : Dom) (s : State ListboxValue) (ev : Event) (c : Data).

(** ClearNavSelection in an open state. *)
Lemma send_clearNavSelection dom s ev :
  isOpen (state_value s) = true ->
  type ev = ClearNavSelection ->
  send dom s ev =
  Some ({| state_value := state_value s;
           context := set_navigationValue None (context s);
           changed := true |},
        match list_ (ev_refs ev) with
        | Some l => [Focus l]
        | None => []
        end).
Proof.
  destruct s as [v [val rfs opts nav tq] ch], ev as [ty [b i l p] evv cb dis q rt d].
  simpl. intros Hopen ->.
  destruct v; try discriminate Hopen; destruct l; reflexivity.
Qed.

(** ButtonMouseDown and KeyDownSpace in Idle. *)
Lemma send_idle_open dom s ev :
  state_value s = Idle ->
  In (type ev) [ButtonMouseDown; KeyDownSpace] ->
  exists (fx : list Fx),
    send dom s ev =
    Some ({| state_value := match type ev with
                            | ButtonMouseDown => Navigating
                            | _ => NavigatingWithKeys
                            end;
             context := set_navigationValue (value (context s)) (context s);
             changed := true |},
          fx).
Proof.
  destruct s as [v [val rfs opts nav tq] ch], ev as [ty [b i l p] evv cb dis q rt d].
  simpl. intros -> Hty.
  destruct Hty as [<-|[<-|[]]]; eexists; reflexivity.
Qed.

(** KeyDownSearch in Idle. *)
Lemma send_keyDownSearch_idle dom s ev (ch : string) :
  state_value s = Idle ->
  type ev = KeyDownSearch ->
  query ev = Some ch ->
  send dom s ev =
  Some ({| state_value := Idle;
           context := set_typeaheadQuery
                        (Some (or_empty (typeaheadQuery (context s)) ++ ch)%string)
                        (context s);
           changed := true |},
        []).
Proof.
  destruct s as [v [val rfs opts nav tq] ch'], ev as [ty [b i l p] evv cb dis q rt d].
  simpl. intros -> -> ->. reflexivity.
Qed.

(** X11. ClearNavSelection in an open state nulls [navigationValue],
    focuses the list when it is mounted, and keeps the state and [value];
    a commit event (OptionFinishClick, KeyDownEnter, KeyDownSpace) sent
    next is dropped, whatever it carries: nothing is selectable until an
    option is highlighted again. *)
Theorem clearNavSelection_blocks_commit dom dom' s ev ev' :
  isOpen (state_value s) = true ->
  type ev = ClearNavSelection ->
  In (type ev') [OptionFinishClick; KeyDownEnter; KeyDownSpace] ->
  exists s1,
    send dom s ev
    = Some (s1, match list_ (ev_refs ev) with
                | Some l => [Focus l]
                | None => []
                end)
    /\ state_value s1 = state_value s
    /\ value (context s1) = value (context s)
    /\ navigationValue (context s1) = None
    /\ dropped (send dom' s1 ev') s1
         (if ev_disabled ev' then [ConsoleLog "BLOCKED"%string] else []).
Proof.
  intros Hopen Hty Hty'. rewrite (send_clearNavSelection dom s ev Hopen Hty).
  eexists. repeat split.
  apply send_commit_blocked; [exact Hopen | exact Hty' | right; reflexivity].
Qed.

(** X12. Opening from Idle while [value] is null highlights nothing:
    after ButtonMouseDown or KeyDownSpace the listbox is open with a null
    [navigationValue], and a commit event sent next is dropped. *)
Theorem open_without_value_not_selectable dom dom' s ev ev' :
  state_value s = Idle ->
  value (context s) = None ->
  In (type ev) [ButtonMouseDown; KeyDownSpace] ->
  In (type ev') [OptionFinishClick; KeyDownEnter; KeyDownSpace] ->
  exists s1 (fx1 : list Fx),
    send dom s ev = Some (s1, fx1)
    /\ isOpen (state_value s1) = true
    /\ navigationValue (context s1) = None
    /\ dropped (send dom' s1 ev') s1
         (if ev_disabled ev' then [ConsoleLog "BLOCKED"%string] else []).
Proof.
  intros Hs Hv Hty Hty'.
  destruct (send_idle_open dom s ev Hs Hty) as (fx & E).
  rewrite E. eexists. eexists. split; [reflexivity|].
  assert (Hopen : isOpen (match type ev with
                          | ButtonMouseDown => Navigating
                          | _ => NavigatingWithKeys
                          end) = true)
    by (destruct (type ev); reflexivity).
  repeat split; [exact Hopen | exact Hv |].
  apply send_commit_blocked; [exact Hopen | exact Hty' | right; exact Hv].
Qed.

(** X13. After a commit, reopening highlights what was committed: a commit
    from an open state followed by ButtonMouseDown or KeyDownSpace leaves
    the listbox open with both [value] and [navigationValue] equal to the
    value the commit event carried. *)
Theorem commit_then_reopen dom dom' s ev ev' :
  isOpen (state_value s) = true ->
  In (type ev) [OptionFinishClick; KeyDownEnter; KeyDownSpace] ->
  ev_disabled ev = false ->
  navigationValue (context s) <> None ->
  In (type ev') [ButtonMouseDown; KeyDownSpace] ->
  exists s1 (fx1 : list Fx) s2 (fx2 : list Fx),
    send dom s ev = Some (s1, fx1)
    /\ state_value s1 = Idle
    /\ send dom' s1 ev' = Some (s2, fx2)
    /\ isOpen (state_value s2) = true
    /\ value (context s2) = ev_value ev
    /\ navigationValue (context s2) = ev_value ev.
Proof.
  intros Hopen Hty Hdis Hnav Hty'.
  rewrite (send_commit dom s ev Hopen Hty Hdis Hnav).
  eexists. eexists.
  edestruct (send_idle_open dom') as (fx2 & E); [| exact Hty' |].
  2: { eexists. exists fx2. split; [reflexivity|]. split; [reflexivity|].
       split; [exact E|]. repeat split. destruct (type ev'); reflexivity. }
  reflexivity.
Qed.

(** X14. A run of KeyDownSearch events accumulates the typed characters:
    from Idle, or from an open state that declares the event, sending the
    keys one after the other leaves in [typeaheadQuery] the query there
    was before (null counting as empty) followed by the keys in the order
    typed.  The run performs no effect, leaves [value], [navigationValue]
    and the options untouched, and ends in Idle when it started there and
    in NavigatingWithKeys otherwise. *)
Theorem typeahead_accumulates s (steps : list (Dom * Event)) (keys : list string) :
  state_value s = Idle \/ hasTypeahead (state_value s) = true ->
  Forall2 (fun step key =>
             type (snd step) = KeyDownSearch /\ query (snd step) = Some key)
          steps keys ->
  exists s',
    send_all s steps = Some (s', [])
    /\ state_value s' =
       match keys with
       | [] => state_value s
       | _ :: _ => after_keys (state_value s)
       end
    /\ typeaheadQuery (context s') =
       match keys with
       | [] => typeaheadQuery (context s)
       | _ :: _ =>
           Some (or_empty (typeaheadQuery (context s)) ++ typed_so_far keys)%string
       end
    /\ value (context s') = value (context s)
    /\ navigationValue (context s') = navigationValue (context s)
    /\ options (context s') = options (context s).
Proof.
  intros Hs Hk. revert s Hs.
  induction Hk as [|[dom ev] key steps keys [Hty Hq] Hk IH]; intros s Hs.
  - exists s. repeat split.
  - simpl in Hty, Hq.
    assert (E : exists s1,
               send dom s ev = Some (s1, [])
               /\ state_value s1 = after_keys (state_value s)
               /\ typeaheadQuery (context s1)
                  = Some (or_empty (typeaheadQuery (context s)) ++ key)%string
               /\ value (context s1) = value (context s)
               /\ navigationValue (context s1) = navigationValue (context s)
               /\ options (context s1) = options (context s)).
    { destruct Hs as [Hs|Hs].
      - rewrite (send_keyDownSearch_idle dom s ev Hs Hty Hq).
        eexists. repeat split. rewrite Hs. reflexivity.
      - rewrite (send_keyDownSearch dom s ev Hs Hty Hq).
        eexists. repeat split.
        + destruct (state_value s); try discriminate Hs; reflexivity.
        + cbn. destruct (typeaheadQuery (context s)); reflexivity. }
    destruct E as (s1 & E & Hv1 & Hq1 & Hval1 & Hnav1 & Hopt1).
    destruct (IH s1) as (s' & R & Hv' & Hq' & Hval' & Hnav' & Hopt').
    { rewrite Hv1. destruct Hs as [Hs|Hs].
      - left. rewrite Hs. reflexivity.
      - right. destruct (state_value s); try discriminate Hs; reflexivity. }
    exists s'. simpl. rewrite E. simpl. rewrite R. simpl.
    repeat split.
    + rewrite Hv'. destruct keys; [exact Hv1|].
      rewrite Hv1. destruct (state_value s); reflexivity.
    + rewrite Hq'. destruct keys as [|k2 keys].
      * rewrite Hq1. simpl. rewrite append_empty_r. reflexivity.
      * rewrite Hq1. simpl. rewrite append_assoc. reflexivity.
    + congruence.
    + congruence.
    + congruence.
Qed.

End Sequences.

Section Lookups.

Context {ListboxValue : Type} {value_eq : StrictEq ListboxValue}
        {lower : LowerCase}.

Abbreviation Data := (ListboxStateData ListboxValue).

(** X15. The node that [focusNavOption] focuses: for a null value there is
    none; for a value no option carries there is none; otherwise it is the
    element of the first option, in list order, that carries the value
    (itself null when that option is not mounted).  [===] on values is
    taken to be equality. *)
Theorem navigation_node_lookup (data : Data) (v : ListboxValue) :
  (forall a b : ListboxValue, strict_eq a b = true <-> a = b) ->
  getNavigationNodeFromValue data None = None
  /\ (Forall (fun o => opt_value o <> v) (options data) ->
      getNavigationNodeFromValue data (Some v) = None)
  /\ (forall before o after,
        options data = before ++ o :: after ->
        opt_value o = v ->
        Forall (fun x => opt_value x <> v) before ->
        getNavigationNodeFromValue data (Some v) = element o).
Proof.
  intros Heq. unfold getNavigationNodeFromValue. repeat split.
  - assert (N : find (fun _ : ListboxOption ListboxValue => false) (options data) = None)
      by (induction (options data); auto).
    rewrite N. reflexivity.
  - intros Hno.
    assert (N : find (fun o => strict_eq v (opt_value o)) (options data) = None).
    { apply find_nothing. rewrite Forall_forall in *. intros o Ho.
      apply not_true_is_false. rewrite Heq. intros E. exact (Hno o Ho (eq_sym E)). }
    rewrite N. reflexivity.
  - intros before o after Hsplit Ho Hbefore.
    assert (F : find (fun o => strict_eq v (opt_value o)) (options data) = Some o).
    { apply find_first. exists before, after. repeat split.
      - exact Hsplit.
      - apply Heq. symmetry. exact Ho.
      - rewrite Forall_forall in *. intros x Hx.
        apply not_true_is_false. rewrite Heq. intros E. exact (Hbefore x Hx (eq_sym E)). }
    rewrite F. reflexivity.
Qed.

End Lookups.

(** Writing a key the object lacks appends it. *)
Lemma js_set_fresh {A : Type} (o : JsObject A) (name : string) (v : A) :
  name <> "__proto__"%string ->
  ~ In name (map fst o) -> js_set o name v = o ++ [(name, v)].
Proof.
  intros Hp. induction o as [|[k x] o IH]; simpl; intros Hn.
  - destruct (String.eqb_spec name "__proto__"); [contradiction | reflexivity].
  - destruct (String.eqb_spec k name) as [->|Hk].
    + exfalso. apply Hn. left. reflexivity.
    + rewrite IH; [reflexivity|]. intros Hin. apply Hn. right. exact Hin.
Qed.

Lemma unwrapRefs_from (refs : JsObject RefObject) (acc : JsObject (option Element)) :
  ~ In "__proto__"%string (map fst refs) ->
  NoDup (map fst acc ++ map fst refs) ->
  fold_left (fun value entry => js_set value (fst entry) (current (snd entry)))
            refs acc
  = acc ++ map (fun entry => (fst entry, current (snd entry))) refs.
Proof.
  revert acc. induction refs as [|[name ref] refs IH]; intros acc Hp Hnd; simpl.
  - rewrite app_nil_r. reflexivity.
  - simpl in Hnd, Hp. rewrite js_set_fresh.
    + rewrite IH.
      * rewrite <- app_assoc. reflexivity.
      * intros Hin. apply Hp. right. exact Hin.
      * rewrite map_app. simpl. rewrite <- app_assoc. simpl.
        exact Hnd.
    + intros E. apply Hp. left. exact E.
    + apply NoDup_remove_2 in Hnd. intros Hin. apply Hnd.
      apply in_or_app. left. exact Hin.
Qed.

Lemma js_get_map (refs : JsObject RefObject) (name : string) :
  js_get (map (fun entry => (fst entry, current (snd entry))) refs) name
  = option_map current (js_get refs name).
Proof.
  induction refs as [|[k ref] refs IH]; simpl; [reflexivity|].
  destruct (String.eqb k name); [reflexivity | exact IH].
Qed.

(** X18. [unwrapRefs] reads every ref once: for a ref map without a key
    named [__proto__], the own properties of the result are those of the
    ref map, each holding the [current] of its ref: a key of the map is an
    own key of the result and holds the current element of its ref, and a
    name that is no key of the map is no own key of the result. *)
Theorem unwrapRefs_reads_current (refs : JsObject RefObject) :
  NoDup (map fst refs) ->
  ~ In "__proto__"%string (map fst refs) ->
  forall name,
    js_get (unwrapRefs refs) name = option_map current (js_get refs name).
Proof.
  intros Hnd Hp name. unfold unwrapRefs.
  rewrite unwrapRefs_from; [apply js_get_map | exact Hp | exact Hnd].
Qed.

Section Focus.

Context {ListboxValue : Type} {value_eq : StrictEq ListboxValue}
        {lower : LowerCase}.

Abbreviation Data := (ListboxStateData ListboxValue).
Abbreviation Event := (ListboxEvent ListboxValue).
Abbreviation Fx := (Effect ListboxValue).

Implicit Types (dom : Dom) (s : State ListboxValue) (ev : Event) (c : Data).

(** X19. ButtonMouseUp is declared by Navigating only.  There the machine
    stays in Navigating, [navigationValue] is set back to the current
    [value], the list is focused when it is mounted and then the focus of
    the option carrying [value] is scheduled; although [focusList] comes
    first in the action list, the scheduled focus is computed on the
    context after the assignment.  In the four other states the event is
    dropped. *)
Theorem buttonMouseUp_in_navigating dom s ev :
  type ev = ButtonMouseUp ->
  (state_value s = Navigating ->
   steps_to (send dom s ev) Navigating
     {| value := value (context s);
        refs := refs (context s);
        options := options (context s);
        navigationValue := value (context s);
        typeaheadQuery := typeaheadQuery (context s) |}
     (match list_ (ev_refs ev) with
      | Some l => [Focus l]
      | None => []
      end
      ++ [RequestAnimationFrame
            (getNavigationNodeFromValue (context s) (value (context s)))]))
  /\ (state_value s <> Navigating -> dropped (send dom s ev) s []).
Proof.
  destruct s as [v [val rfs opts nav tq] ch], ev as [ty [b i l p] evv cb dis q rt d].
  unfold steps_to, dropped. simpl. intros ->. split.
  - intros ->. destruct l; eexists; repeat split.
  - intros Hv. destruct v; try reflexivity. contradiction.
Qed.

(** X20. Focus that stays with the listbox keeps it open: on Blur in an
    open state, when the list is the active element of the button's
    document, or when the event names a relatedTarget that the popover
    contains, [listboxLostFocus] is false and the machine remains in an
    open state. *)
Theorem blur_inside_stays_open dom s ev :
  isOpen (state_value s) = true ->
  type ev = Blur ->
  same_node (activeElement dom (owner_or_document dom (button (ev_refs ev))))
            (list_ (ev_refs ev)) = true
  \/ (exists p t,
        popover (ev_refs ev) = Some p
        /\ relatedTarget ev = Some t
        /\ contains dom p t = true) ->
  listboxLostFocus dom (context s) ev = false
  /\ exists s',
       send dom s ev = Some (s', [])
       /\ isOpen (state_value s') = true.
Proof.
  intros Hopen Hty Hin.
  assert (L : listboxLostFocus dom (context s) ev = false).
  { unfold listboxLostFocus. rewrite Hty.
    destruct Hin as [Hl|(p & t & Hp & Ht & Hc)].
    - rewrite Hl. reflexivity.
    - rewrite Hp, Ht. simpl. rewrite Hc. apply andb_false_r. }
  split; [exact L|].
  rewrite (send_blur dom s ev Hopen Hty), L.
  destruct (optionIsActive dom (context s) ev); eexists; split; try reflexivity.
  simpl. destruct (state_value s); try reflexivity. discriminate Hopen.
Qed.

End Focus.

(** *** The further properties on the sample page *)

Section SampleRuns.

#[local] Existing Instance sample_lower.

(** X1 at a Blur that finds focus on the Apple option: the transition is
    taken and the state comes back unchanged. *)
Lemma unchanged_flag_sound_witness :
  send (page (Some 5)) (at_state Navigating (fruit (Some 1) (Some 1) (Some "a"%string)))
       (blur_to mounted (Some 5))
  = Some (at_state Navigating (fruit (Some 1) (Some 1) (Some "a"%string)), [])
  /\ state_value (at_state Navigating (fruit (Some 1) (Some 1) (Some "a"%string)))
     = Navigating
  /\ context (at_state Navigating (fruit (Some 1) (Some 1) (Some "a"%string)))
     = fruit (Some 1) (Some 1) (Some "a"%string).
Proof.
  split; [reflexivity|].
  exact (@unchanged_flag_sound nat _ _ (page (Some 5))
           (at_state Navigating (fruit (Some 1) (Some 1) (Some "a"%string)))
           (blur_to mounted (Some 5))
           (at_state Navigating (fruit (Some 1) (Some 1) (Some "a"%string))) []
           eq_refl eq_refl).
Defined.

(** X2 at the pointer entering an option while navigating. *)
Lemma undeclared_events_dropped_witness :
  dropped (send (page None) (at_state Navigating (fruit None (Some 1) None))
                (with_value OptionMouseEnter 2 None))
          (at_state Navigating (fruit None (Some 1) None)) [].
Proof.
  apply (@undeclared_events_dropped nat _).
  simpl. auto.
Defined.

(** X3 at Escape pressed after "ab" was typed with Banana highlighted. *)
Lemma close_keeps_context_witness :
  steps_to (send (page None)
                 (at_state NavigatingWithKeys (fruit (Some 1) (Some 2) (Some "ab"%string)))
                 (bare KeyDownEscape))
           Idle (fruit (Some 1) (Some 2) (Some "ab"%string)) [Focus 1].
Proof.
  exact (@close_keeps_context nat _ _ (page None)
           (at_state NavigatingWithKeys (fruit (Some 1) (Some 2) (Some "ab"%string)))
           (bare KeyDownEscape) eq_refl (or_intror (or_introl eq_refl))).
Defined.

(** X4 at an arrow key towards Banana pressed in Idle. *)
Lemma keyDownNavigate_everywhere_witness :
  steps_to (send (page None) (at_state Idle (fruit (Some 1) None (Some "a"%string)))
                 (with_value KeyDownNavigate 2 None))
           NavigatingWithKeys (fruit (Some 1) (Some 2) None)
           [RequestAnimationFrame (Some 6)].
Proof.
  exact (@keyDownNavigate_everywhere nat _ _ (page None)
           (at_state Idle (fruit (Some 1) None (Some "a"%string)))
           (with_value KeyDownNavigate 2 None) eq_refl).
Defined.

(** X5 at a ValueChange marked disabled, sent to Interacting with nothing
    highlighted. *)
Lemma valueChange_unguarded_witness :
  steps_to (send (page None) (at_state Interacting (fruit (Some 1) None None))
                 (marked_disabled ValueChange 2 (Some 9)))
           Interacting (fruit (Some 2) None None) [Call 9 (Some 2)].
Proof.
  exact (@valueChange_unguarded nat _ _ (page None)
           (at_state Interacting (fruit (Some 1) None None))
           (marked_disabled ValueChange 2 (Some 9)) eq_refl).
Defined.

(** X7 at a pointer move to Banana. *)
Lemma options_and_refs_frame_witness :
  exists s' fx,
    send (page None) (at_state Navigating (fruit None None None))
         (with_value Navigate 2 None) = Some (s', fx)
    /\ options (context s') = [apple; banana]
    /\ refs (context s') = mounted.
Proof.
  apply (@options_and_refs_frame nat _ _ (page None)
           (at_state Navigating (fruit None None None))
           (with_value Navigate 2 None)).
  simpl. discriminate.
Defined.

(** X8 at a run from the initial state: open, type "b", lose focus to the
    Apple option, press an arrow key. *)
Lemma searching_never_entered_witness :
  exists s' fx,
    send_all (createListboxMachine (Some 1))
             [ (page None, bare ButtonMouseDown);
               (page None, with_query KeyDownSearch "b" None);
               (page (Some 5), blur_to mounted (Some 5));
               (page None, with_value KeyDownNavigate 2 None) ]
    = Some (s', fx)
    /\ state_value s' <> Searching.
Proof.
  destruct (send_all (createListboxMachine (Some 1))
              [ (page None, bare ButtonMouseDown);
                (page None, with_query KeyDownSearch "b" None);
                (page (Some 5), blur_to mounted (Some 5));
                (page None, with_value KeyDownNavigate 2 None) ])
    as [[s' fx]|] eqn:E; [|vm_compute in E; discriminate E].
  exists s', fx. split; [reflexivity|].
  refine (@searching_never_entered nat _ _ (createListboxMachine (Some 1)) _ s' fx _ E).
  simpl. discriminate.
Defined.

(** X9 at the button pressed while Apple is the value. *)
Lemma idle_opens_only_by_witness :
  exists s' fx,
    send (page None) (at_state Idle (fruit (Some 1) None None)) (bare ButtonMouseDown)
    = Some (s', fx)
    /\ state_value s' = Navigating
    /\ navigationValue (context s') = Some 1.
Proof.
  assert (Hp : has_payload (bare ButtonMouseDown)) by (unfold has_payload; simpl; discriminate).
  destruct (@idle_opens_only_by nat _ _ (page None)
              (at_state Idle (fruit (Some 1) None None)) (bare ButtonMouseDown)
              eq_refl Hp) as (s' & fx & E & H).
  exists s', fx. split; [exact E|].
  destruct H as [(_ & Hs & Hn)|[(F & _)|[(F & _)|(_ & F)]]].
  - split; assumption.
  - discriminate F.
  - discriminate F.
  - exfalso. apply F. simpl. auto.
Defined.

(** X10 at a pointer move, which does not close, and at Escape, which
    does. *)
Lemma open_closes_only_by_witness :
  (exists s' fx,
      send (page None) (at_state Navigating (fruit None None None))
           (bare KeyDownEscape) = Some (s', fx)
      /\ state_value s' = Idle)
  /\ exists s' fx,
       send (page None) (at_state Navigating (fruit None None None))
            (with_value Navigate 2 None) = Some (s', fx)
       /\ (state_value s' = Idle -> False).
Proof.
  split.
  - assert (Hp : has_payload (bare KeyDownEscape))
      by (unfold has_payload; simpl; discriminate).
    destruct (@open_closes_only_by nat _ _ (page None)
                (at_state Navigating (fruit None None None)) (bare KeyDownEscape)
                eq_refl Hp) as (s' & fx & E & H).
    exists s', fx. split; [exact E|]. apply H. right. right. simpl. auto.
  - assert (Hp : has_payload (with_value Navigate 2 None))
      by (unfold has_payload; simpl; discriminate).
    destruct (@open_closes_only_by nat _ _ (page None)
                (at_state Navigating (fruit None None None)) (with_value Navigate 2 None)
                eq_refl Hp) as (s' & fx & E & H).
    exists s', fx. split; [exact E|]. intros Hs. apply H in Hs.
    destruct Hs as [[F _]|[[F _]|F]]; simpl in F.
    + discriminate F.
    + destruct F as [F|[F|[F|[]]]]; discriminate F.
    + destruct F as [F|[F|[]]]; discriminate F.
Defined.

(** X11 at the highlight cleared while Banana was highlighted, then a
    click on Banana. *)
Lemma clearNavSelection_blocks_commit_witness :
  exists s1,
    send (page None) (at_state Navigating (fruit (Some 1) (Some 2) None))
         (bare ClearNavSelection) = Some (s1, [Focus 3])
    /\ state_value s1 = Navigating
    /\ value (context s1) = Some 1
    /\ navigationValue (context s1) = None
    /\ dropped (send (page None) s1 (with_value OptionFinishClick 2 (Some 9))) s1 [].
Proof.
  exact (@clearNavSelection_blocks_commit nat _ _ (page None) (page None)
           (at_state Navigating (fruit (Some 1) (Some 2) None))
           (bare ClearNavSelection) (with_value OptionFinishClick 2 (Some 9))
           eq_refl eq_refl (or_introl eq_refl)).
Defined.

(** X12 at the initial state of a listbox without value: Space opens it,
    Enter then commits nothing. *)
Lemma open_without_value_not_selectable_witness :
  exists s1 fx1,
    send (page None) (createListboxMachine None) (bare KeyDownSpace) = Some (s1, fx1)
    /\ isOpen (state_value s1) = true
    /\ navigationValue (context s1) = None
    /\ dropped (send (page None) s1 (with_value KeyDownEnter 2 (Some 9))) s1 [].
Proof.
  exact (@open_without_value_not_selectable nat _ _ (page None) (page None)
           (createListboxMachine None) (bare KeyDownSpace)
           (with_value KeyDownEnter 2 (Some 9))
           eq_refl eq_refl (or_intror (or_introl eq_refl))
           (or_intror (or_introl eq_refl))).
Defined.

(** X13 at Banana committed by Enter, then the button pressed again. *)
Lemma commit_then_reopen_witness :
  exists s1 fx1 s2 fx2,
    send (page None) (at_state NavigatingWithKeys (fruit (Some 1) (Some 2) None))
         (with_value KeyDownEnter 2 None) = Some (s1, fx1)
    /\ state_value s1 = Idle
    /\ send (page None) s1 (bare ButtonMouseDown) = Some (s2, fx2)
    /\ isOpen (state_value s2) = true
    /\ value (context s2) = Some 2
    /\ navigationValue (context s2) = Some 2.
Proof.
  apply (@commit_then_reopen nat _ _ (page None) (page None)
           (at_state NavigatingWithKeys (fruit (Some 1) (Some 2) None))
           (with_value KeyDownEnter 2 None) (bare ButtonMouseDown)).
  - reflexivity.
  - simpl. auto.
  - reflexivity.
  - simpl. discriminate.
  - simpl. auto.
Defined.

(** X14 at "b" then "a" typed in Navigating after an "x". *)
Lemma typeahead_accumulates_witness :
  exists s',
    send_all (at_state Navigating (fruit (Some 1) None (Some "x"%string)))
             [ (page None, with_query KeyDownSearch "b" None);
               (page None, with_query KeyDownSearch "a" None) ]
    = Some (s', [])
    /\ state_value s' = NavigatingWithKeys
    /\ typeaheadQuery (context s') = Some "xba"%string
    /\ value (context s') = Some 1
    /\ navigationValue (context s') = None
    /\ options (context s') = [apple; banana].
Proof.
  apply (@typeahead_accumulates nat _ _
           (at_state Navigating (fruit (Some 1) None (Some "x"%string)))
           [ (page None, with_query KeyDownSearch "b" None);
             (page None, with_query KeyDownSearch "a" None) ]
           [ "b"%string; "a"%string ]).
  - right. reflexivity.
  - repeat constructor.
Defined.

(** X15 at the value of Banana among the fruit options. *)
Lemma navigation_node_lookup_witness :
  getNavigationNodeFromValue (fruit None None None) (Some 2) = Some 6
  /\ getNavigationNodeFromValue (fruit None None None) (@None nat) = None.
Proof.
  pose proof (@navigation_node_lookup nat _ (fruit None None None) 2 Nat.eqb_eq)
    as (Hnull & _ & Hfound).
  split; [|exact Hnull].
  apply (Hfound [apple] banana []).
  - reflexivity.
  - reflexivity.
  - constructor; [simpl; discriminate | constructor].
Defined.

(** X18 at the four refs of the listbox: the popover is mounted, the input
    is not, and the result has no own key [root]. *)
Lemma unwrapRefs_reads_current_witness :
  js_get (unwrapRefs sample_refs) "popover"%string = Some (Some 4)
  /\ js_get (unwrapRefs sample_refs) "input"%string = Some None
  /\ js_get (unwrapRefs sample_refs) "root"%string = None.
Proof.
  assert (Hnd : NoDup (map fst sample_refs)).
  { simpl. repeat constructor; simpl; intros H;
      repeat (destruct H as [H|H]; [discriminate H|]); exact H. }
  assert (Hp : ~ In "__proto__"%string (map fst sample_refs)).
  { simpl. intros H. repeat (destruct H as [H|H]; [discriminate H|]). exact H. }
  split; [|split].
  - exact (unwrapRefs_reads_current sample_refs Hnd Hp "popover"%string).
  - exact (unwrapRefs_reads_current sample_refs Hnd Hp "input"%string).
  - exact (unwrapRefs_reads_current sample_refs Hnd Hp "root"%string).
Defined.

(** X19 at the button released while Banana is the value and Apple is
    highlighted, and at the same event in Idle. *)
Lemma buttonMouseUp_in_navigating_witness :
  steps_to (send (page None) (at_state Navigating (fruit (Some 2) (Some 1) None))
                 (bare ButtonMouseUp))
           Navigating (fruit (Some 2) (Some 2) None)
           [Focus 3; RequestAnimationFrame (Some 6)]
  /\ dropped (send (page None) (at_state Idle (fruit (Some 2) (Some 1) None))
                   (bare ButtonMouseUp))
             (at_state Idle (fruit (Some 2) (Some 1) None)) [].
Proof.
  split.
  - exact (proj1 (@buttonMouseUp_in_navigating nat _ _ (page None)
                    (at_state Navigating (fruit (Some 2) (Some 1) None))
                    (bare ButtonMouseUp) eq_refl) eq_refl).
  - apply (proj2 (@buttonMouseUp_in_navigating nat _ _ (page None)
                    (at_state Idle (fruit (Some 2) (Some 1) None))
                    (bare ButtonMouseUp) eq_refl)).
    simpl. discriminate.
Defined.

(** X20 at focus moving to the list, and at focus moving to the Banana
    option inside the popover. *)
Lemma blur_inside_stays_open_witness :
  (listboxLostFocus (page (Some 3)) (fruit None None None) (blur_to mounted None) = false
   /\ exists s',
        send (page (Some 3)) (at_state Navigating (fruit None None None))
             (blur_to mounted None) = Some (s', [])
        /\ isOpen (state_value s') = true)
  /\ (listboxLostFocus (page None) (fruit None None None) (blur_to mounted (Some 6)) = false
      /\ exists s',
           send (page None) (at_state Navigating (fruit None None None))
                (blur_to mounted (Some 6)) = Some (s', [])
           /\ isOpen (state_value s') = true).
Proof.
  split.
  - exact (@blur_inside_stays_open nat _ _ (page (Some 3))
             (at_state Navigating (fruit None None None)) (blur_to mounted None)
             eq_refl eq_refl (or_introl eq_refl)).
  - apply (@blur_inside_stays_open nat _ _ (page None)
             (at_state Navigating (fruit None None None)) (blur_to mounted (Some 6))
             eq_refl eq_refl).
    right. exists 4, 6. repeat split.
Defined.

End SampleRuns.
